(** * Money Mindset: the simulation calculators and the progression catalog

    A shallow embedding of the numeric code of the simulation pages
    (credit-card payoff, budget builder, coffee-shop effect, emergency fund,
    compound interest, paycheck game) and of the level table of the progress
    page, with the properties the specification states about them.

    Numbers.  A JavaScript [number] is idealised: a finite value is an exact
    rational ([Q]), and the two infinities and NaN are kept as separate
    values with the IEEE rules for them ([JsNum.num]).  Rounding error of
    binary64 and the sign of zero are not modelled.  Code that only adds,
    subtracts, multiplies or divides by a non-zero constant is written over
    [Q] directly; code that can divide by zero, or that returns [Infinity],
    is written over [JsNum.num].

    Where the rounding of binary64 decides the answer, the code is also
    given over binary64 itself, on the primitive floating-point numbers:
    the credit-card payoff loop, whose test compares a payment with the
    rounded interest of the month ([CreditCard64]), and the budget score,
    whose average is rounded to an integer ([BudgetBuilder64]).  What is
    stated about the threshold of the former and about the score of every
    budget is stated about these versions. *)

From Stdlib Require Import Floats.
From Stdlib Require Uint63.
From Stdlib Require Import ZArith QArith Qround Qabs Qminmax Qpower.
From Stdlib Require Import List String Bool Lia Lqa.
Import ListNotations.

Local Open Scope Q_scope.

(* ================================================================== *)
(** * Part I: the embedding *)

(** ** Rational helpers *)

Definition Qltb (x y : Q) : bool := negb (Qle_bool y x).

(** [Math.min] and [Math.max] on finite numbers. *)
Definition Qmin' (x y : Q) : Q := if Qle_bool x y then x else y.
Definition Qmax' (x y : Q) : Q := if Qle_bool x y then y else x.

(** [Math.round] on a finite number: the nearest integer, a half rounding
    towards plus infinity. *)
Definition Qround_half_up (x : Q) : Z := Qfloor (x + (1 # 2)).

(** ** JavaScript numbers with infinities and NaN *)

Module JsNum.

Inductive num : Type :=
| Fin (q : Q)
| PInf
| NInf
| NaN.

(** Equality of numbers as values: rationals are compared by [Qeq]. *)
Definition num_eq (x y : num) : Prop :=
  match x, y with
  | Fin p, Fin q => p == q
  | PInf, PInf => True
  | NInf, NInf => True
  | NaN, NaN => True
  | _, _ => False
  end.

Definition is_nan (x : num) : bool :=
  match x with NaN => true | _ => false end.

Definition is_finite (x : num) : bool :=
  match x with Fin _ => true | _ => false end.

(** The sign of a rational, as the comparison of zero with it: [Lt] for a
    positive number, [Gt] for a negative one, [Eq] for zero. *)
Definition Qsign (q : Q) : comparison := (0 ?= q)%Q.

Definition opp (x : num) : num :=
  match x with
  | Fin q => Fin (- q)
  | PInf => NInf
  | NInf => PInf
  | NaN => NaN
  end.

Definition add (x y : num) : num :=
  match x, y with
  | NaN, _ | _, NaN => NaN
  | Fin p, Fin q => Fin (p + q)
  | PInf, NInf | NInf, PInf => NaN
  | PInf, _ | _, PInf => PInf
  | NInf, _ | _, NInf => NInf
  end.

Definition sub (x y : num) : num := add x (opp y).

(** An infinity ([pos]: the positive one) times a finite factor. *)
Definition scale_inf (pos : bool) (q : Q) : num :=
  match Qsign q with
  | Eq => NaN
  | Lt => if pos then PInf else NInf
  | Gt => if pos then NInf else PInf
  end.

Definition mul (x y : num) : num :=
  match x, y with
  | NaN, _ | _, NaN => NaN
  | Fin p, Fin q => Fin (p * q)
  | PInf, Fin q | Fin q, PInf => scale_inf true q
  | NInf, Fin q | Fin q, NInf => scale_inf false q
  | PInf, PInf | NInf, NInf => PInf
  | PInf, NInf | NInf, PInf => NInf
  end.

(** Division: a non-zero finite number over zero is an infinity of its
    sign, and zero over zero is NaN. *)
Definition div (x y : num) : num :=
  match x, y with
  | NaN, _ | _, NaN => NaN
  | Fin p, Fin q =>
      match Qsign q with
      | Eq => match Qsign p with
              | Eq => NaN
              | Lt => PInf
              | Gt => NInf
              end
      | _ => Fin (p / q)
      end
  | Fin _, (PInf | NInf) => Fin 0
  | PInf, Fin q => match Qsign q with Gt => NInf | _ => PInf end
  | NInf, Fin q => match Qsign q with Gt => PInf | _ => NInf end
  | (PInf | NInf), (PInf | NInf) => NaN
  end.

Definition abs (x : num) : num :=
  match x with
  | Fin q => Fin (Qabs q)
  | PInf | NInf => PInf
  | NaN => NaN
  end.

(** [Math.max]: NaN as soon as one argument is NaN. *)
Definition max (x y : num) : num :=
  match x, y with
  | NaN, _ | _, NaN => NaN
  | PInf, _ | _, PInf => PInf
  | NInf, z | z, NInf => z
  | Fin p, Fin q => Fin (Qmax' p q)
  end.

(** [Math.round]. *)
Definition round (x : num) : num :=
  match x with
  | Fin q => Fin (inject_Z (Qround_half_up q))
  | _ => x
  end.

(** [Math.pow] of a finite base to a natural exponent. *)
Definition pow (x : Q) (n : nat) : num := Fin (x ^ Z.of_nat n).

(** [Math.log], given the logarithm [ln] of the positive rationals: NaN
    below zero, minus infinity at zero. *)
Definition log (ln : Q -> Q) (x : num) : num :=
  match x with
  | Fin q => match Qsign q with
             | Lt => Fin (ln q)
             | Eq => NInf
             | Gt => NaN
             end
  | PInf => PInf
  | NInf | NaN => NaN
  end.

End JsNum.

Import JsNum.

Declare Scope num_scope.
Delimit Scope num_scope with num.
Bind Scope num_scope with num.
Infix "+" := add : num_scope.
Infix "-" := sub : num_scope.
Infix "*" := mul : num_scope.
Infix "/" := div : num_scope.
Infix "=n=" := num_eq (at level 70, no associativity).

(** [x <= y] on JavaScript numbers: false as soon as one side is NaN. *)
Definition num_leb (x y : num) : bool :=
  match x, y with
  | NaN, _ | _, NaN => false
  | NInf, _ | _, PInf => true
  | PInf, _ | _, NInf => false
  | Fin p, Fin q => Qle_bool p q
  end.

(* ================================================================== *)
(** ** Credit-card debt page *)

Module CreditCard.

(** [apr / 100 / 12], as both steps of the page compute it. *)
Definition monthlyRate (apr : Q) : Q := apr / 100 / 12.

(** [Math.max(25, balance * 0.02)]: 2% of the balance or $25. *)
Definition minimumPayment (balance : Q) : Q := Qmax' 25 (balance * 0.02).

(** The two sliders of [StepDebtSetup]. *)
Definition balance_offered (balance : Q) : Prop :=
  1000 <= balance /\ balance <= 15000.
Definition apr_offered (apr : Q) : Prop :=
  15 <= apr /\ apr <= 30.

Section Preview.

(** The natural logarithm of a positive rational; the preview only needs
    where the logarithm is defined, not its value. *)
Variable ln : Q -> Q.

(** The argument of the first [Math.log] of [StepDebtSetup]. *)
Definition payoffLogArgument (balance apr : Q) : num :=
  (Fin (minimumPayment balance)
   / Fin (minimumPayment balance - balance * monthlyRate apr))%num.

Definition monthsToPayoff (balance apr : Q) : num :=
  (log ln (payoffLogArgument balance apr)
   / log ln (Fin (1 + monthlyRate apr)))%num.

Definition previewTotalPaid (balance apr : Q) : num :=
  (Fin (minimumPayment balance) * monthsToPayoff balance apr)%num.

Definition previewTotalInterest (balance apr : Q) : num :=
  (previewTotalPaid balance apr - Fin balance)%num.

End Preview.

(** The object [calculatePayoff] returns. *)
Record PayoffResult : Type := {
  months : nat;
  totalPaid : num;
  totalInterest : num
}.

(** The object returned when a payment does not reduce the balance:
    [{ months: 600, totalPaid: Infinity, totalInterest: Infinity }]. *)
Definition never_paid_off : PayoffResult :=
  {| months := 600; totalPaid := PInf; totalInterest := PInf |}.

(** The [while] loop of [calculatePayoff]; [fuel] bounds the number of
    tests of the loop condition, [None] is running out of it. *)
Fixpoint payoff_loop (fuel : nat) (balance monthlyRate monthlyPayment : Q)
    (remainingBalance totalPaid : Q) (months : nat) : option PayoffResult :=
  match fuel with
  | O => None
  | S fuel' =>
      if Qltb 0 remainingBalance && (months <? 600)%nat then
        let interestCharge := remainingBalance * monthlyRate in
        let principalPayment :=
          Qmin' (monthlyPayment - interestCharge) remainingBalance in
        if Qle_bool principalPayment 0 then Some never_paid_off
        else
          payoff_loop fuel' balance monthlyRate monthlyPayment
            (remainingBalance - principalPayment)
            (totalPaid + monthlyPayment) (S months)
      else
        Some {| months := months;
                totalPaid := Fin totalPaid;
                totalInterest := Fin (totalPaid - balance) |}
  end.

(** [calculatePayoff] of [StepCompare], whose props are [balance] and
    [apr].  The loop tests its condition at most 601 times.  This is the
    loop in exact arithmetic; [CreditCard64.calculatePayoff] below is the
    loop as binary64 computes it, which differs where a payment equals the
    exact interest. *)
Definition calculatePayoff (balance apr monthlyPayment : Q)
  : option PayoffResult :=
  payoff_loop 601 balance (monthlyRate apr) monthlyPayment balance 0 0.

(** What the specification asks of a non-convergent result: that a payment
    which would converge can be read off the result.  Stated for every
    reading [minimum_of] of a result: the payment read off must not itself
    be answered with [never_paid_off]. *)
Definition carries_converging_payment
    (minimum_of : PayoffResult -> Q) : Prop :=
  forall balance apr monthlyPayment r,
    0 < balance ->
    monthlyPayment <= balance * monthlyRate apr ->
    calculatePayoff balance apr monthlyPayment = Some r ->
    calculatePayoff balance apr (minimum_of r) <> Some never_paid_off.

(** A payment strategy of [StepCompare] (the pictogram is left out). *)
Record PaymentStrategy : Type := {
  name : string;
  monthlyPayment : Q;
  color : string
}.

Definition strategies (balance : Q) : list PaymentStrategy :=
  [ {| name := "Minimum Only"; monthlyPayment := Qmax' 25 (balance * 0.02);
       color := "#ef4444" |};
    {| name := "Fixed $100"; monthlyPayment := 100; color := "#f59e0b" |};
    {| name := "Fixed $200"; monthlyPayment := 200; color := "#10b981" |};
    {| name := "Aggressive $400"; monthlyPayment := 400;
       color := "#3b82f6" |} ].

(** [results]: every strategy with the answer of [calculatePayoff] to its
    payment. *)
Definition results (balance apr : Q)
  : list (PaymentStrategy * option PayoffResult) :=
  map (fun strategy =>
         (strategy, calculatePayoff balance apr (monthlyPayment strategy)))
      (strategies balance).

(** The payoff time a strategy card shows is ["50+ years"]. *)
Definition showsFiftyPlusYears (r : PayoffResult) : bool :=
  (500 <? months r)%nat.

End CreditCard.

(* ================================================================== *)
(** ** Credit-card debt page, over binary64 *)

(** Whether a number of the bit-level specification of binary64 is a zero,
    a negative number or minus infinity. *)
Definition SFnonpos (z : spec_float) : bool :=
  match z with
  | S754_zero _ | S754_finite true _ _ | S754_infinity true => true
  | _ => false
  end.

(** The functions of [Math] the pages use, on binary64. *)
Module JsFloat.

Import PrimFloat.

Local Open Scope float_scope.

(** [Math.min]: NaN as soon as one argument is NaN, and [-0] below [+0]. *)
Definition Math_min (x y : float) : float :=
  if is_nan x || is_nan y then nan
  else if x <? y then x
  else if y <? x then y
  else if get_sign x then x else y.

(** [Math.max]: NaN as soon as one argument is NaN, and [+0] above [-0]. *)
Definition Math_max (x y : float) : float :=
  if is_nan x || is_nan y then nan
  else if x <? y then y
  else if y <? x then x
  else if get_sign x then y else x.

(** [Math.round]: the nearest integer, a half rounding towards plus
    infinity; NaN, the infinities, the zeros and the numbers without a
    fractional part (exponent 0 or more) are returned as they are.  For a
    number [m * 2^e] with [e < 0] the integer is [floor (m * 2^e + 1/2)],
    computed on the mantissa; it has fewer than 53 bits, and a result of
    zero keeps the sign of the argument. *)
Definition Math_round (x : float) : float :=
  match Prim2SF x with
  | S754_finite s m e =>
      if (0 <=? e)%Z then x
      else
        let scale := (2 ^ (- e))%Z in
        let n := ((2 * cond_Zopp s (Zpos m) + scale) / (2 * scale))%Z in
        SF2Prim (binary_normalize prec emax n 0 s)
  | _ => x
  end.

(** A slider position as a number. *)
Definition of_nat (k : nat) : float := of_uint63 (Uint63.of_Z (Z.of_nat k)).

End JsFloat.

Module CreditCard64.

Import PrimFloat.

Local Open Scope float_scope.
Local Set Warnings "-inexact-float".

(** [apr / 100 / 12]. *)
Definition monthlyRate (apr : float) : float := apr / 100 / 12.

(** The object [calculatePayoff] returns. *)
Record PayoffResult : Type := {
  months : nat;
  totalPaid : float;
  totalInterest : float
}.

(** [{ months: 600, totalPaid: Infinity, totalInterest: Infinity }]. *)
Definition never_paid_off : PayoffResult :=
  {| months := 600; totalPaid := infinity; totalInterest := infinity |}.

(** The [while] loop of [calculatePayoff], every operation rounded as
    binary64 rounds it and every comparison false on NaN; [fuel] bounds the
    number of tests of the loop condition, [None] is running out of it. *)
Fixpoint payoff_loop (fuel : nat) (balance monthlyRate monthlyPayment : float)
    (remainingBalance totalPaid : float) (months : nat)
  : option PayoffResult :=
  match fuel with
  | O => None
  | S fuel' =>
      if (0 <? remainingBalance) && (months <? 600)%nat then
        let interestCharge := remainingBalance * monthlyRate in
        let principalPayment :=
          JsFloat.Math_min (monthlyPayment - interestCharge)
            remainingBalance in
        if principalPayment <=? 0 then Some never_paid_off
        else
          payoff_loop fuel' balance monthlyRate monthlyPayment
            (remainingBalance - principalPayment)
            (totalPaid + monthlyPayment) (S months)
      else
        Some {| months := months;
                totalPaid := totalPaid;
                totalInterest := totalPaid - balance |}
  end.

(** [calculatePayoff] of [StepCompare]. *)
Definition calculatePayoff (balance apr monthlyPayment : float)
  : option PayoffResult :=
  payoff_loop 601 balance (monthlyRate apr) monthlyPayment balance 0 0.

(** The values the two sliders of [StepDebtSetup] offer: the balance from
    1000 to 15000 in steps of 500, the APR from 15 to 30 in steps of 0.5. *)
Definition balances_offered : list float :=
  map (fun k => 1000 + 500 * JsFloat.of_nat k) (seq 0 29).

Definition aprs_offered : list float :=
  map (fun k => 15 + 0.5 * JsFloat.of_nat k) (seq 0 31).

(** The monthly payments of the four strategies of [StepCompare]. *)
Definition payments_offered (balance : float) : list float :=
  [JsFloat.Math_max 25 (balance * 0.02); 100; 200; 400].

(** Whether a result is the object returned for a payment that does not
    reduce the balance. *)
Definition is_never_paid_off (r : PayoffResult) : bool :=
  (months r =? 600)%nat
  && Leibniz.eqb (totalPaid r) infinity
  && Leibniz.eqb (totalInterest r) infinity.

(** Whether the answer to a payment is the never-paid-off object exactly
    when the payment does not exceed the interest of the first month, both
    as binary64 computes them. *)
Definition threshold_decides (balance apr monthlyPayment : float) : bool :=
  match calculatePayoff balance apr monthlyPayment with
  | Some r =>
      Bool.eqb (is_never_paid_off r)
        (monthlyPayment <=? balance * monthlyRate apr)
  | None => false
  end.

End CreditCard64.

(* ================================================================== *)
(** ** Coffee-shop effect page *)

Module CoffeeShop.

Definition dailyCost : Q := 5.50.
Definition workdaysPerWeek : Q := 5.
Definition weeksPerYear : Q := 52.

(** [annualCost] of [StepCompound] ([actualCost] of [StepReality]). *)
Definition annualCost : Q := dailyCost * workdaysPerWeek * weeksPerYear.

(** [calculateFutureValue(pmt, rate, years)] of [StepCompound]. *)
Definition calculateFutureValue (pmt rate : Q) (years : nat) : num :=
  if (years =? 0)%nat then Fin 0
  else (Fin pmt * ((pow (1 + rate) years - Fin 1) / Fin rate))%num.

(** The chart row of [StepCompound] for year [i]; the rate is the
    literal 0.08 there. *)
Definition investedAt (i : nat) : num := calculateFutureValue annualCost 0.08 i.

(** The future value of an ordinary annuity as the specification means
    it, to compare [calculateFutureValue] with: every period the balance
    earns [rate] and one payment is added at the end of the period. *)
Fixpoint spec_future_value_of_series (pmt rate : Q) (periods : nat) : Q :=
  match periods with
  | O => 0
  | S n => spec_future_value_of_series pmt rate n * (1 + rate) + pmt
  end.

(** The score of [handleComplete]. *)
Definition actualCost : Q := 5.50 * 5 * 52.

Definition accuracyPercent (userGuess : Q) : Q :=
  let difference := Qabs (actualCost - userGuess) in
  Qmax' 0 (100 - (difference / actualCost * 100)).

Definition score (userGuess : Q) : Z :=
  Qround_half_up (accuracyPercent userGuess).

Definition isPerfect (userGuess : Q) : bool := (95 <=? score userGuess)%Z.

(** [totalSpent], [ifInvested] and [difference] of [StepCompound] for the
    horizon [years] of the slider. *)
Definition totalSpent (years : nat) : Q :=
  annualCost * inject_Z (Z.of_nat years).

Definition ifInvested (years : nat) : num := investedAt years.

Definition difference (years : nat) : num :=
  (ifInvested years - Fin (totalSpent years))%num.

(** [StepOpportunityCost] (the pictograms are left out). *)
Record Purchase : Type := { name : string; cost : Q }.

Definition totalSavings (selectedYears : Q) : Q := 1430 * selectedYears.

Definition purchases (selectedYears : Q) : list Purchase :=
  [ {| name := "iPhone 15 Pro"; cost := 1199 |};
    {| name := "Vacation to Hawaii"; cost := 3500 |};
    {| name := "MacBook Air"; cost := 1299 |};
    {| name := "Used Car Down Payment"; cost := 5000 |};
    {| name := "Emergency Fund"; cost := totalSavings selectedYears |} ].

Definition affordablePurchases (selectedYears : Q) : list Purchase :=
  filter (fun p => Qle_bool (cost p) (totalSavings selectedYears))
         (purchases selectedYears).

End CoffeeShop.

(* ================================================================== *)
(** ** Compound-interest page *)

Module CompoundInterest.

Definition returnRate : Q := 0.08.

Record Value : Type := { balance : Q; invested : Q }.

(** [calculateValue] of [StepRace]; ages are whole years. *)
Definition calculateValue (startAge endAge : Z) (monthlyAmount : Q)
    (currentAge : Z) : Value :=
  if ((currentAge <? startAge) || (endAge <? currentAge))%Z then
    let yearsInvesting := Z.max 0 (Z.min endAge currentAge - startAge) in
    if (yearsInvesting =? 0)%Z then {| balance := 0; invested := 0 |}
    else
      let monthlyRate := returnRate / 12 in
      let months := (yearsInvesting * 12)%Z in
      let balance :=
        monthlyAmount * (((1 + monthlyRate) ^ months - 1) / monthlyRate) in
      let additionalYears := (currentAge - endAge)%Z in
      let balance :=
        if (0 <? additionalYears)%Z
        then balance * (1 + returnRate) ^ additionalYears
        else balance in
      {| balance := balance; invested := monthlyAmount * inject_Z months |}
  else
    let months := ((currentAge - startAge) * 12)%Z in
    let monthlyRate := returnRate / 12 in
    let balance :=
      monthlyAmount * (((1 + monthlyRate) ^ months - 1) / monthlyRate) in
    {| balance := balance; invested := monthlyAmount * inject_Z months |}.

(** The three contributors of [StepRace]. *)
Definition emma (currentAge : Z) : Value := calculateValue 25 35 300 currentAge.
Definition steven (currentAge : Z) : Value := calculateValue 35 65 300 currentAge.
Definition larry (currentAge : Z) : Value := calculateValue 45 65 500 currentAge.

(** [finalValue] of [StepCalculator]. *)
Definition finalValue (age : Z) (monthlyAmount : Q) (yearsInvesting : Z) : Q :=
  let retirementAge := 65%Z in
  let endInvestingAge := (age + yearsInvesting)%Z in
  let monthlyRate := returnRate / 12 in
  let months := (yearsInvesting * 12)%Z in
  let finalValue :=
    monthlyAmount * (((1 + monthlyRate) ^ months - 1) / monthlyRate) in
  let additionalYears := (retirementAge - endInvestingAge)%Z in
  if (0 <? additionalYears)%Z
  then finalValue * (1 + returnRate) ^ additionalYears
  else finalValue.

End CompoundInterest.

(** The other values of [StepCalculator]. *)
Module CompoundCalculator.

Definition totalInvested (monthlyAmount : Q) (yearsInvesting : Z) : Q :=
  monthlyAmount * inject_Z (yearsInvesting * 12).

Definition totalGrowth (age : Z) (monthlyAmount : Q) (yearsInvesting : Z) : Q :=
  CompoundInterest.finalValue age monthlyAmount yearsInvesting
  - totalInvested monthlyAmount yearsInvesting.

Record ChartPoint : Type := { age : Z; balance : Q; invested : Q }.

(** The body of the [for] loop that fills [chartData], at index [i]. *)
Definition chartPoint (age : Z) (monthlyAmount : Q) (yearsInvesting : Z)
    (i : Z) : ChartPoint :=
  let monthlyRate := CompoundInterest.returnRate / 12 in
  let currentAge := (age + i)%Z in
  let contributionYears := Z.min i yearsInvesting in
  let contributionMonths := (contributionYears * 12)%Z in
  let value :=
    if (0 <? contributionMonths)%Z then
      let value :=
        monthlyAmount
        * (((1 + monthlyRate) ^ contributionMonths - 1) / monthlyRate) in
      let growthYears := Z.max 0 (i - yearsInvesting) in
      if (0 <? growthYears)%Z
      then value * (1 + CompoundInterest.returnRate) ^ growthYears
      else value
    else 0 in
  let invested := monthlyAmount * inject_Z contributionMonths in
  {| age := currentAge; balance := value; invested := invested |}.

(** [chartData]: one point for every [i] from 0 to [retirementAge - age]. *)
Definition chartData (age : Z) (monthlyAmount : Q) (yearsInvesting : Z)
  : list ChartPoint :=
  map (fun k => chartPoint age monthlyAmount yearsInvesting (Z.of_nat k))
      (seq 0 (Z.to_nat (65 - age + 1))).

End CompoundCalculator.

(* ================================================================== *)
(** ** Budget-builder page *)

Module BudgetBuilder.

Inductive BudgetType : Type := needs | wants | savings.

Definition BudgetType_eqb (a b : BudgetType) : bool :=
  match a, b with
  | needs, needs | wants, wants | savings, savings => true
  | _, _ => false
  end.

Record BudgetItem : Type := {
  category : string;
  amount : Q;
  type : BudgetType
}.

(** [budget.filter(item => item.type === t)
          .reduce((sum, item) => sum + item.amount, 0)]. *)
Definition total (t : BudgetType) (budget : list BudgetItem) : Q :=
  fold_left (fun sum item => sum + amount item)
    (filter (fun item => BudgetType_eqb (type item) t) budget) 0.

(** [(total / income) * 100] of [StepVisualize]. *)
Definition percent (t : BudgetType) (income : Q) (budget : list BudgetItem)
  : num :=
  (Fin (total t budget) / Fin income * Fin 100)%num.

Definition needsScore (income : Q) (budget : list BudgetItem) : num :=
  max (Fin 0) (Fin 100 - abs (percent needs income budget - Fin 50) * Fin 2)%num.

Definition wantsScore (income : Q) (budget : list BudgetItem) : num :=
  max (Fin 0) (Fin 100 - abs (percent wants income budget - Fin 30) * Fin 3)%num.

Definition savingsScore (income : Q) (budget : list BudgetItem) : num :=
  max (Fin 0) (Fin 100 - abs (percent savings income budget - Fin 20) * Fin 4)%num.

Definition overallScore (income : Q) (budget : list BudgetItem) : num :=
  round ((needsScore income budget + wantsScore income budget
          + savingsScore income budget) / Fin 3)%num.

(** The budget [StepAllocate] hands over when no slider is moved. *)
Definition defaultBudget (income : Q) : list BudgetItem :=
  [ {| category := "Housing"; amount := income * 0.30; type := needs |};
    {| category := "Utilities"; amount := income * 0.05; type := needs |};
    {| category := "Groceries"; amount := income * 0.08; type := needs |};
    {| category := "Transportation"; amount := income * 0.05; type := needs |};
    {| category := "Insurance"; amount := income * 0.02; type := needs |};
    {| category := "Dining Out"; amount := income * 0.10; type := wants |};
    {| category := "Entertainment"; amount := income * 0.08; type := wants |};
    {| category := "Shopping"; amount := income * 0.07; type := wants |};
    {| category := "Subscriptions"; amount := income * 0.05; type := wants |};
    {| category := "Emergency Fund"; amount := income * 0.08; type := savings |};
    {| category := "Retirement"; amount := income * 0.10; type := savings |};
    {| category := "Goals"; amount := income * 0.02; type := savings |} ].

(** The scoring rule in the specification's words, to compare the page
    with: the deviation of a bucket from its target, the bucket's score,
    and the unweighted average. *)
Definition spec_deviation (actual_percent target_percent : num) : num :=
  abs (actual_percent - target_percent)%num.

Definition spec_bucket_score (actual_percent target_percent penalty_factor : num)
  : num :=
  max (Fin 0)
    (Fin 100 - spec_deviation actual_percent target_percent * penalty_factor)%num.

Definition spec_overall_score (needs_percent wants_percent savings_percent : num)
  : num :=
  round ((spec_bucket_score needs_percent (Fin 50) (Fin 2)
          + spec_bucket_score wants_percent (Fin 30) (Fin 3)
          + spec_bucket_score savings_percent (Fin 20) (Fin 4)) / Fin 3)%num.

(** The twelve sliders of [StepAllocate]. *)
Record Allocation : Type := {
  housing : Q;
  utilities : Q;
  groceries : Q;
  transportation : Q;
  insurance : Q;
  dining : Q;
  entertainment : Q;
  shopping : Q;
  subscriptions : Q;
  emergency : Q;
  retirement : Q;
  goals : Q
}.

(** The initial values of the sliders. *)
Definition initialAllocation (income : Q) : Allocation :=
  {| housing := income * 0.30;
     utilities := income * 0.05;
     groceries := income * 0.08;
     transportation := income * 0.05;
     insurance := income * 0.02;
     dining := income * 0.10;
     entertainment := income * 0.08;
     shopping := income * 0.07;
     subscriptions := income * 0.05;
     emergency := income * 0.08;
     retirement := income * 0.10;
     goals := income * 0.02 |}.

Definition totalNeeds (a : Allocation) : Q :=
  housing a + utilities a + groceries a + transportation a + insurance a.

Definition totalWants (a : Allocation) : Q :=
  dining a + entertainment a + shopping a + subscriptions a.

Definition totalSavings (a : Allocation) : Q :=
  emergency a + retirement a + goals a.

Definition totalAllocated (a : Allocation) : Q :=
  totalNeeds a + totalWants a + totalSavings a.

(** [(total / income) * 100] of [StepAllocate]. *)
Definition allocatedPercent (total income : Q) : num :=
  (Fin total / Fin income * Fin 100)%num.

Definition isBalanced (income : Q) (a : Allocation) : bool :=
  Qltb (Qabs (totalAllocated a - income)) 10.

Definition needsGood (income : Q) (a : Allocation) : bool :=
  num_leb (Fin 40) (allocatedPercent (totalNeeds a) income)
  && num_leb (allocatedPercent (totalNeeds a) income) (Fin 60).

Definition wantsGood (income : Q) (a : Allocation) : bool :=
  num_leb (Fin 20) (allocatedPercent (totalWants a) income)
  && num_leb (allocatedPercent (totalWants a) income) (Fin 40).

Definition savingsGood (income : Q) (a : Allocation) : bool :=
  num_leb (Fin 15) (allocatedPercent (totalSavings a) income)
  && num_leb (allocatedPercent (totalSavings a) income) (Fin 30).

(** The budget [handleSubmit] hands to the next step. *)
Definition handleSubmit (a : Allocation) : list BudgetItem :=
  [ {| category := "Housing"; amount := housing a; type := needs |};
    {| category := "Utilities"; amount := utilities a; type := needs |};
    {| category := "Groceries"; amount := groceries a; type := needs |};
    {| category := "Transportation"; amount := transportation a;
       type := needs |};
    {| category := "Insurance"; amount := insurance a; type := needs |};
    {| category := "Dining Out"; amount := dining a; type := wants |};
    {| category := "Entertainment"; amount := entertainment a;
       type := wants |};
    {| category := "Shopping"; amount := shopping a; type := wants |};
    {| category := "Subscriptions"; amount := subscriptions a;
       type := wants |};
    {| category := "Emergency Fund"; amount := emergency a;
       type := savings |};
    {| category := "Retirement"; amount := retirement a; type := savings |};
    {| category := "Goals"; amount := goals a; type := savings |} ].

End BudgetBuilder.

(* ================================================================== *)
(** ** Budget-builder score, over binary64 *)

Module BudgetBuilder64.

Import PrimFloat.

Local Open Scope float_scope.
Local Set Warnings "-inexact-float".

Record BudgetItem : Type := {
  category : string;
  amount : float;
  type : BudgetBuilder.BudgetType
}.

(** [budget.filter(item => item.type === t)
          .reduce((sum, item) => sum + item.amount, 0)]. *)
Definition total (t : BudgetBuilder.BudgetType) (budget : list BudgetItem)
  : float :=
  fold_left (fun sum item => sum + amount item)
    (filter (fun item => BudgetBuilder.BudgetType_eqb (type item) t) budget)
    0.

(** [(total / income) * 100] of [StepVisualize]. *)
Definition percent (t : BudgetBuilder.BudgetType) (income : float)
    (budget : list BudgetItem) : float :=
  total t budget / income * 100.

Definition needsScore (income : float) (budget : list BudgetItem) : float :=
  JsFloat.Math_max 0
    (100 - abs (percent BudgetBuilder.needs income budget - 50) * 2).

Definition wantsScore (income : float) (budget : list BudgetItem) : float :=
  JsFloat.Math_max 0
    (100 - abs (percent BudgetBuilder.wants income budget - 30) * 3).

Definition savingsScore (income : float) (budget : list BudgetItem) : float :=
  JsFloat.Math_max 0
    (100 - abs (percent BudgetBuilder.savings income budget - 20) * 4).

Definition overallScore (income : float) (budget : list BudgetItem) : float :=
  JsFloat.Math_round
    ((needsScore income budget + wantsScore income budget
      + savingsScore income budget) / 3).

(** The budget [StepAllocate] hands over when no slider is moved. *)
Definition defaultBudget (income : float) : list BudgetItem :=
  [ {| category := "Housing"; amount := income * 0.30;
       type := BudgetBuilder.needs |};
    {| category := "Utilities"; amount := income * 0.05;
       type := BudgetBuilder.needs |};
    {| category := "Groceries"; amount := income * 0.08;
       type := BudgetBuilder.needs |};
    {| category := "Transportation"; amount := income * 0.05;
       type := BudgetBuilder.needs |};
    {| category := "Insurance"; amount := income * 0.02;
       type := BudgetBuilder.needs |};
    {| category := "Dining Out"; amount := income * 0.10;
       type := BudgetBuilder.wants |};
    {| category := "Entertainment"; amount := income * 0.08;
       type := BudgetBuilder.wants |};
    {| category := "Shopping"; amount := income * 0.07;
       type := BudgetBuilder.wants |};
    {| category := "Subscriptions"; amount := income * 0.05;
       type := BudgetBuilder.wants |};
    {| category := "Emergency Fund"; amount := income * 0.08;
       type := BudgetBuilder.savings |};
    {| category := "Retirement"; amount := income * 0.10;
       type := BudgetBuilder.savings |};
    {| category := "Goals"; amount := income * 0.02;
       type := BudgetBuilder.savings |} ].



(** The scoring rule in the specification's words, over the amounts of a
    budget: the running total of a bucket, its share of the income in
    percent, the targets and penalty factors of the three buckets, the
    deviation and the score of a bucket, and the rounded unweighted
    average. *)
Fixpoint spec_bucket_total (t : BudgetBuilder.BudgetType)
    (budget : list BudgetItem) (sum : float) : float :=
  match budget with
  | [] => sum
  | item :: rest =>
      spec_bucket_total t rest
        (if BudgetBuilder.BudgetType_eqb (type item) t
         then sum + amount item else sum)
  end.

Definition spec_actual_percent (t : BudgetBuilder.BudgetType) (income : float)
    (budget : list BudgetItem) : float :=
  spec_bucket_total t budget 0 / income * 100.

Definition spec_target_percent (t : BudgetBuilder.BudgetType) : float :=
  match t with
  | BudgetBuilder.needs => 50
  | BudgetBuilder.wants => 30
  | BudgetBuilder.savings => 20
  end.

Definition spec_penalty_factor (t : BudgetBuilder.BudgetType) : float :=
  match t with
  | BudgetBuilder.needs => 2
  | BudgetBuilder.wants => 3
  | BudgetBuilder.savings => 4
  end.

Definition spec_deviation (t : BudgetBuilder.BudgetType) (income : float)
    (budget : list BudgetItem) : float :=
  abs (spec_actual_percent t income budget - spec_target_percent t).

Definition spec_bucket_score (t : BudgetBuilder.BudgetType) (income : float)
    (budget : list BudgetItem) : float :=
  JsFloat.Math_max 0
    (100 - spec_deviation t income budget * spec_penalty_factor t).



End BudgetBuilder64.

(* ================================================================== *)
(** ** Emergency-fund page *)

Module EmergencyFund.

(** A character of the race (the avatar pictogram is left out). *)
Record Character : Type := {
  name : string;
  hasEmergencyFund : bool;
  emergencyFund : Q;
  debt : Q;
  stress : Q
}.

Record Emergency : Type := {
  month : nat;
  type : string;
  cost : Q;
  description : string
}.

(** The state of [StepRace]. *)
Record Race : Type := {
  currentMonth : nat;
  sarah : Character;
  mike : Character;
  emergencies : list Emergency
}.

Definition initialRace : Race :=
  {| currentMonth := 0;
     sarah := {| name := "Sarah"; hasEmergencyFund := true;
                 emergencyFund := 5000; debt := 0; stress := 2 |};
     mike := {| name := "Mike"; hasEmergencyFund := false;
                emergencyFund := 0; debt := 0; stress := 5 |};
     emergencies := [] |}.

(** The predefined emergencies (the descriptions without their pictograms). *)
Definition emergencyEvents : list Emergency :=
  [ {| month := 2; type := "car"; cost := 800;
       description := "Car broke down - needs new battery and brakes" |};
    {| month := 5; type := "medical"; cost := 1200;
       description := "Emergency dental work required" |};
    {| month := 8; type := "home"; cost := 600;
       description := "Water heater failed and needs replacement" |};
    {| month := 11; type := "appliance"; cost := 900;
       description := "Refrigerator died - need new one ASAP" |} ].

(** [emergencyEvents.find(e => e.month === currentMonth)]. *)
Definition emergencyOf (currentMonth : nat) : option Emergency :=
  find (fun e => (month e =? currentMonth)%nat) emergencyEvents.

(** The two state updates of an emergency month. *)
Definition sarahEmergency (emergency : Emergency) (prev : Character) : Character :=
  let canPayFromFund := Qle_bool (cost emergency) (emergencyFund prev) in
  if canPayFromFund then
    {| name := name prev; hasEmergencyFund := hasEmergencyFund prev;
       emergencyFund := emergencyFund prev - cost emergency;
       debt := debt prev;
       stress := Qmin' (stress prev + 1) 10 |}
  else
    let debtAdded := cost emergency - emergencyFund prev in
    {| name := name prev; hasEmergencyFund := hasEmergencyFund prev;
       emergencyFund := 0;
       debt := debt prev + debtAdded;
       stress := Qmin' (stress prev + 3) 10 |}.

Definition mikeEmergency (emergency : Emergency) (prev : Character) : Character :=
  {| name := name prev; hasEmergencyFund := hasEmergencyFund prev;
     emergencyFund := emergencyFund prev;
     debt := debt prev + cost emergency;
     stress := Qmin' (stress prev + 3) 10 |}.

(** The two state updates of a normal month. *)
Definition sarahNormal (prev : Character) : Character :=
  {| name := name prev; hasEmergencyFund := hasEmergencyFund prev;
     emergencyFund := emergencyFund prev + 400;
     debt := Qmax' 0 (debt prev - debt prev * 0.05);
     stress := Qmax' 1 (stress prev - 0.5) |}.

Definition mikeNormal (prev : Character) : Character :=
  {| name := name prev; hasEmergencyFund := hasEmergencyFund prev;
     emergencyFund := emergencyFund prev;
     debt := debt prev + (if Qltb 0 (debt prev) then debt prev * 0.018 else 0);
     stress := if Qltb 0 (debt prev)
               then Qmin' (stress prev + 0.5) 10 else stress prev |}.

(** One run of the effect of [StepRace] with its timers fired: [None]
    once month 12 is reached (the page then hands over to the next step). *)
Definition step (s : Race) : option Race :=
  if (12 <=? currentMonth s)%nat then None
  else
    match emergencyOf (currentMonth s) with
    | Some emergency =>
        Some {| currentMonth := S (currentMonth s);
                sarah := sarahEmergency emergency (sarah s);
                mike := mikeEmergency emergency (mike s);
                emergencies := emergencies s ++ [emergency] |}
    | None =>
        Some {| currentMonth := S (currentMonth s);
                sarah := sarahNormal (sarah s);
                mike := mikeNormal (mike s);
                emergencies := emergencies s |}
    end.

(** The race until the page hands over, at most [fuel] months. *)
Fixpoint run (fuel : nat) (s : Race) : option Race :=
  match step s with
  | None => Some s
  | Some s' =>
      match fuel with
      | O => None
      | S fuel' => run fuel' s'
      end
  end.

(** The emergencies of the [n] months from month [m] on, in order. *)
Definition scheduled (m n : nat) : list Emergency :=
  flat_map (fun k => match emergencyOf k with
                     | Some emergency => [emergency]
                     | None => []
                     end)
           (seq m n).

(** [StepResults]: the net worth of a character. *)
Definition netWorth (c : Character) : Q := emergencyFund c - debt c.

(** The three running values of one [timelineData] entry. *)
Record Ledger : Type := { sarahFund : Q; sarahDebt : Q; mikeDebt : Q }.

(** The first [forEach] of a [timelineData] entry. *)
Definition applyEmergency (month : nat) (l : Ledger) (emergency : Emergency)
  : Ledger :=
  if (EmergencyFund.month emergency <=? month)%nat then
    if Qle_bool (cost emergency) (sarahFund l) then
      {| sarahFund := sarahFund l - cost emergency;
         sarahDebt := sarahDebt l;
         mikeDebt := mikeDebt l + cost emergency |}
    else
      {| sarahFund := 0;
         sarahDebt := sarahDebt l + (cost emergency - sarahFund l);
         mikeDebt := mikeDebt l + cost emergency |}
  else l.

(** The second [forEach]: the interest on the debt of the character
    without a fund. *)
Definition applyInterest (month : nat) (mikeDebt : Q) (emergency : Emergency)
  : Q :=
  if (EmergencyFund.month emergency <? month)%nat then
    let monthsOfInterest := (month - EmergencyFund.month emergency)%nat in
    mikeDebt * 1.018 ^ Z.of_nat monthsOfInterest
  else mikeDebt.

Record TimelinePoint : Type := {
  timelineMonth : nat;
  timelineSarah : Q;
  timelineMike : Q
}.

(** One entry of [timelineData]. *)
Definition timelinePoint (emergencies : list Emergency) (month : nat)
  : TimelinePoint :=
  let l := fold_left (applyEmergency month) emergencies
             {| sarahFund := 5000; sarahDebt := 0; mikeDebt := 0 |} in
  let normalMonths :=
    (Z.of_nat month
     - Z.of_nat
         (List.length
            (filter (fun e => (EmergencyFund.month e <=? month)%nat)
                    emergencies)))%Z in
  let sarahFund := sarahFund l + inject_Z normalMonths * 400 in
  let mikeDebt := fold_left (applyInterest month) emergencies (mikeDebt l) in
  {| timelineMonth := month;
     timelineSarah := sarahFund - sarahDebt l;
     timelineMike := - mikeDebt |}.

(** [timelineData]: the months 0 to 12. *)
Definition timelineData (emergencies : list Emergency) : list TimelinePoint :=
  map (timelinePoint emergencies) (seq 0 13).

(** A character in a state the page can draw: fund and debt not negative,
    stress between 1 and 10 (the page draws ten bars). *)
Definition sound (c : Character) : Prop :=
  0 <= emergencyFund c /\ 0 <= debt c /\ 1 <= stress c <= 10.

(** The costs of a list of emergencies, and the months of interest the
    timeline charges for them at [month], added up. *)
Definition totalCost (emergencies : list Emergency) : Q :=
  fold_right (fun e acc => cost e + acc) 0 emergencies.

Definition totalMonthsOfInterest (month : nat) (emergencies : list Emergency)
  : nat :=
  fold_right (fun e acc => (month - EmergencyFund.month e + acc)%nat) 0%nat
    emergencies.

End EmergencyFund.

(* ================================================================== *)
(** ** Paycheck-game page *)

Module PaycheckGame.

Inductive Strategy : Type := spend_first | bills_first | save_first.

Inductive StressLevel : Type := low | medium | high.

Record StrategyResult : Type := {
  strategy : Strategy;
  amount_saved : Q;
  bills_paid_on_time : bool;
  discretionary_spent : Q;
  late_fees : Q;
  stress_level : StressLevel;
  final_balance : Q;
  description : string
}.

(** [simulateStrategy] of [StepResults], whose props are [income] and
    [expenses]. *)
Definition simulateStrategy (income expenses : Q) (strat : Strategy)
  : StrategyResult :=
  let remaining := income - expenses in
  let savingsTarget := income * 0.10 in
  match strat with
  | spend_first =>
      let discretionary := remaining * 1.3 in
      let saved := 0 in
      let lateFees := 70 in
      {| strategy := strat;
         amount_saved := saved;
         bills_paid_on_time := false;
         discretionary_spent := discretionary;
         late_fees := lateFees;
         stress_level := high;
         final_balance := income - expenses - discretionary - lateFees;
         description :=
           "You overspent on fun stuff and couldn't pay all your bills on time" |}
  | bills_first =>
      let discretionary := remaining * 0.95 in
      let saved := remaining * 0.05 in
      {| strategy := strat;
         amount_saved := saved;
         bills_paid_on_time := true;
         discretionary_spent := discretionary;
         late_fees := 0;
         stress_level := medium;
         final_balance := income - expenses - discretionary;
         description :=
           "Bills paid, but you barely saved anything for emergencies" |}
  | save_first =>
      let saved := savingsTarget in
      let discretionary := remaining - saved in
      {| strategy := strat;
         amount_saved := saved;
         bills_paid_on_time := true;
         discretionary_spent := discretionary;
         late_fees := 0;
         stress_level := low;
         final_balance := income - expenses - discretionary;
         description :=
           "You automated savings and still had money for fun!" |}
  end.

(** The sliders of [StepSetup]. *)
Record Setup : Type := {
  income : Q;
  rent : Q;
  utilities : Q;
  groceries : Q;
  insurance : Q;
  transportation : Q;
  debt : Q
}.

Definition totalExpenses (s : Setup) : Q :=
  rent s + utilities s + groceries s + insurance s + transportation s
  + debt s.

Definition remaining (s : Setup) : Q := income s - totalExpenses s.

(** The button to the next step is [disabled={remaining <= 0}]. *)
Definition nextDisabled (s : Setup) : bool := Qle_bool (remaining s) 0.

(** The ranges of the sliders. *)
Definition offered (s : Setup) : Prop :=
  2000 <= income s <= 10000
  /\ 500 <= rent s <= 3000
  /\ 50 <= utilities s <= 500
  /\ 200 <= groceries s <= 800
  /\ 100 <= insurance s <= 600
  /\ 100 <= transportation s <= 500
  /\ 0 <= debt s <= 1000.

(** [breakdownData] of [StepResults]: the slices of the pie chart, those
    with a positive value only. *)
Definition breakdownData (income expenses : Q) (strategy : Strategy)
  : list (string * Q) :=
  let yourResult := simulateStrategy income expenses strategy in
  filter (fun item => Qltb 0 (snd item))
    [ ("Fixed Expenses"%string, expenses);
      ("Discretionary"%string, discretionary_spent yourResult);
      ("Saved"%string, amount_saved yourResult);
      ("Late Fees"%string, late_fees yourResult) ].

End PaycheckGame.

(* ================================================================== *)
(** ** Progress page: the level table *)

Module Progress.

Record Level : Type := {
  level : Z;
  name : string;
  minXP : Z;
  maxXP : Z;
  color : string
}.

(** [levels] of the progress page. *)
Definition levels : list Level :=
  [ {| level := 1; name := "Financial Newbie"; minXP := 0; maxXP := 1000;
       color := "gray" |};
    {| level := 2; name := "Money Learner"; minXP := 1000; maxXP := 2500;
       color := "blue" |};
    {| level := 3; name := "Budget Pro"; minXP := 2500; maxXP := 5000;
       color := "green" |};
    {| level := 4; name := "Debt Slayer"; minXP := 5000; maxXP := 10000;
       color := "purple" |};
    {| level := 5; name := "Investment Guru"; minXP := 10000; maxXP := 20000;
       color := "yellow" |};
    {| level := 6; name := "Financial Master"; minXP := 20000; maxXP := 999999;
       color := "orange" |} ].

(** The minimum XP of the six levels as the roadmap document lists them. *)
Definition roadmapLevels : list (Z * string * Z) :=
  [ (1, "Financial Newbie"%string, 0); (2, "Money Student"%string, 1000);
    (3, "Budget Apprentice"%string, 3000);
    (4, "Investment Explorer"%string, 6000);
    (5, "Financial Wizard"%string, 10000);
    (6, "Financial Master"%string, 20000) ]%Z.

(** The fields of [userData] the level card reads. *)
Record UserData : Type := {
  currentXP : Z;
  currentLevel : Z
}.

(** The user data the page ships with. *)
Definition userData : UserData := {| currentXP := 1250; currentLevel := 2 |}.

(** [levels.find(l => l.level === userData.currentLevel)]. *)
Definition currentLevelData (u : UserData) : option Level :=
  find (fun l => (level l =? currentLevel u)%Z) levels.

(** [levels.find(l => l.level === userData.currentLevel + 1)]. *)
Definition nextLevelData (u : UserData) : option Level :=
  find (fun l => (level l =? currentLevel u + 1)%Z) levels.

(** The level the card displays: ["Level {userData.currentLevel}"]. *)
Definition displayedLevel (u : UserData) : Z := currentLevel u.

(** A table of minimum XP is strictly increasing. *)
Fixpoint strictly_increasing (xs : list Z) : bool :=
  match xs with
  | x :: ((y :: _) as rest) => (x <? y)%Z && strictly_increasing rest
  | _ => true
  end.

(** The level the specification derives from the XP total: the greatest
    level of the table whose minimum XP is at most [total_xp] ([None] below
    the first threshold). *)
Definition better (total_xp : Z) (best : option Z) (l : Level) : option Z :=
  if (minXP l <=? total_xp)%Z then
    match best with
    | Some b => Some (Z.max b (level l))
    | None => Some (level l)
    end
  else best.

Definition spec_level_of_xp (table : list Level) (total_xp : Z) : option Z :=
  fold_left (better total_xp) table None.

(** [levelProgress] and [xpToNextLevel] of the page; [None] where the
    row the page dereferences is missing. *)
Definition levelProgress (u : UserData) : option num :=
  match currentLevelData u with
  | Some currentLevelData =>
      Some (Fin (inject_Z (currentXP u - minXP currentLevelData))
            / Fin (inject_Z (maxXP currentLevelData - minXP currentLevelData))
            * Fin 100)%num
  | None => None
  end.

Definition xpToNextLevel (u : UserData) : option Z :=
  match nextLevelData u with
  | Some nextLevelData => Some (maxXP nextLevelData - currentXP u)%Z
  | None => None
  end.

End Progress.

(* ================================================================== *)
(** ** Progression engine: the XP award *)

Module Progression.

(** Modelled from the spec: the progression engine that awards XP on a
    completion event is not among the sources (the pages only post the
    score to it, and the roadmap lists its multipliers); the award follows
    section 4.4 of the specification. *)

(** The streak bonus, from the streak before the event: 3 days 10%,
    7 days 25%, 30 days 100%. *)
Definition streak_bonus (current_streak_days : Z) : Q :=
  if (30 <=? current_streak_days)%Z then 1.00
  else if (7 <=? current_streak_days)%Z then 0.25
  else if (3 <=? current_streak_days)%Z then 0.10
  else 0.

Definition first_attempt_bonus (is_first_attempt : bool) : Q :=
  if is_first_attempt then 0.20 else 0.

Definition perfect_score_bonus (raw_score : Q) : Q :=
  if Qle_bool 95 raw_score then 0.50 else 0.

(** [round(base * (1 + sum_of_applicable_bonus_fractions))]. *)
Definition award_xp (base : Q) (raw_score : Q) (is_first_attempt : bool)
    (current_streak_days : Z) : Z :=
  Qround_half_up
    (base * (1 + (first_attempt_bonus is_first_attempt
                  + perfect_score_bonus raw_score
                  + streak_bonus current_streak_days))).

(** What compounding the same bonuses would give, for comparison. *)
Definition compounded_xp (base : Q) (raw_score : Q) (is_first_attempt : bool)
    (current_streak_days : Z) : Z :=
  Qround_half_up
    (base * (1 + first_attempt_bonus is_first_attempt)
          * (1 + perfect_score_bonus raw_score)
          * (1 + streak_bonus current_streak_days)).

End Progression.

(* ================================================================== *)
(** * Part II: properties *)

(** ** Facts about the helpers *)

Lemma Qltb_lt (x y : Q) : Qltb x y = true <-> x < y.
Proof.
  unfold Qltb. rewrite negb_true_iff. split.
  - intro H. apply Qnot_le_lt. intro Hle.
    apply Qle_bool_iff in Hle. congruence.
  - intro H. destruct (Qle_bool y x) eqn:E; [|reflexivity].
    apply Qle_bool_iff in E. apply Qlt_not_le in H. contradiction.
Qed.

Lemma Qltb_ge (x y : Q) : Qltb x y = false <-> y <= x.
Proof.
  unfold Qltb. rewrite negb_false_iff. apply Qle_bool_iff.
Qed.

Lemma Qle_bool_gt (x y : Q) : Qle_bool x y = false <-> y < x.
Proof.
  rewrite <- Qltb_lt. unfold Qltb. now rewrite negb_true_iff.
Qed.

Lemma Qmin'_spec (x y : Q) :
  (x <= y /\ Qmin' x y = x) \/ (y < x /\ Qmin' x y = y).
Proof.
  unfold Qmin'. destruct (Qle_bool x y) eqn:E.
  - left. split; [now apply Qle_bool_iff | reflexivity].
  - right. split; [now apply Qle_bool_gt | reflexivity].
Qed.

Lemma Qmax'_spec (x y : Q) :
  (x <= y /\ Qmax' x y = y) \/ (y < x /\ Qmax' x y = x).
Proof.
  unfold Qmax'. destruct (Qle_bool x y) eqn:E.
  - left. split; [now apply Qle_bool_iff | reflexivity].
  - right. split; [now apply Qle_bool_gt | reflexivity].
Qed.

Lemma Qmax'_compat (x x' y y' : Q) :
  x == x' -> y == y' -> Qmax' x y == Qmax' x' y'.
Proof.
  intros Hx Hy.
  destruct (Qmax'_spec x y) as [[H ->]|[H ->]];
    destruct (Qmax'_spec x' y') as [[H' ->]|[H' ->]]; lra.
Qed.

Lemma Qmax'_ge_l (x y : Q) : x <= Qmax' x y.
Proof. destruct (Qmax'_spec x y) as [[H ->]|[H ->]]; lra. Qed.

Lemma Qmax'_ge_r (x y : Q) : y <= Qmax' x y.
Proof. destruct (Qmax'_spec x y) as [[H ->]|[H ->]]; lra. Qed.

Lemma Qmin'_le_l (x y : Q) : Qmin' x y <= x.
Proof. destruct (Qmin'_spec x y) as [[H ->]|[H ->]]; lra. Qed.

Lemma Qsign_pos (q : Q) : 0 < q -> Qsign q = Lt.
Proof. intro H. unfold Qsign. now apply Qlt_alt. Qed.

Lemma Qsign_neg (q : Q) : q < 0 -> Qsign q = Gt.
Proof. intro H. unfold Qsign. now apply Qgt_alt. Qed.

Lemma Qsign_zero (q : Q) : q == 0 -> Qsign q = Eq.
Proof. intro H. unfold Qsign. apply Qeq_alt. now symmetry. Qed.

Lemma num_eq_refl (x : num) : x =n= x.
Proof. destruct x; simpl; auto with qarith. Qed.

(** The rounding is the integer within a half of the number. *)
Lemma Qround_half_up_spec (x : Q) (z : Z) :
  inject_Z z - (1 # 2) <= x -> x < inject_Z z + (1 # 2) ->
  Qround_half_up x = z.
Proof.
  intros Hlo Hhi. unfold Qround_half_up.
  pose proof (Qfloor_le (x + (1 # 2))) as Hfl.
  pose proof (Qlt_floor (x + (1 # 2))) as Hfu.
  set (f := Qfloor (x + (1 # 2))) in *.
  rewrite inject_Z_plus in Hfu. change (inject_Z 1) with 1 in Hfu.
  assert (Hl : inject_Z f < inject_Z (z + 1)).
  { rewrite inject_Z_plus. change (inject_Z 1) with 1. lra. }
  assert (Hu : inject_Z z < inject_Z (f + 1)).
  { rewrite inject_Z_plus. change (inject_Z 1) with 1. lra. }
  rewrite <- Zlt_Qlt in Hl, Hu. lia.
Qed.

Lemma Qround_half_up_Z (z : Z) : Qround_half_up (inject_Z z) = z.
Proof. apply Qround_half_up_spec; lra. Qed.

Lemma Qround_half_up_mono (x y : Q) :
  x <= y -> (Qround_half_up x <= Qround_half_up y)%Z.
Proof.
  intro H. unfold Qround_half_up. apply Qfloor_resp_le. lra.
Qed.

(* ================================================================== *)
(** ** Credit-card payoff loop *)

Section PayoffLoop.

Import CreditCard.

Variables balance rate payment : Q.

(** The loop answers, and with at most 600 months, whenever the fuel
    covers the months still allowed. *)
Lemma payoff_loop_total (fuel : nat) :
  forall (remaining paid : Q) (m : nat),
    (600 - m < fuel)%nat ->
    exists r, payoff_loop fuel balance rate payment remaining paid m = Some r
              /\ (m <= 600 -> months r <= 600)%nat.
Proof.
  induction fuel as [|fuel IH]; intros remaining paid m Hfuel; [lia|].
  simpl.
  destruct (Qltb 0 remaining && (m <? 600)%nat) eqn:Hcond.
  - apply andb_true_iff in Hcond as [_ Hm]. apply Nat.ltb_lt in Hm.
    destruct (Qle_bool _ 0).
    + exists never_paid_off. split; [reflexivity | simpl; lia].
    + destruct (IH (remaining
                    - Qmin' (payment - remaining * rate) remaining)
                   (paid + payment) (S m)) as [r [Hr Hle]]; [lia|].
      exists r. split; [exact Hr | lia].
  - eexists. split; [reflexivity | simpl; lia].
Qed.

(** More fuel than needed does not change the answer. *)
Lemma payoff_loop_fuel (fuel : nat) :
  forall (remaining paid : Q) (m : nat) r,
    payoff_loop fuel balance rate payment remaining paid m = Some r ->
    payoff_loop (S fuel) balance rate payment remaining paid m = Some r.
Proof.
  induction fuel as [|fuel IH]; intros remaining paid m r H; [discriminate|].
  simpl in H. cbn [payoff_loop].
  destruct (Qltb 0 remaining && (m <? 600)%nat); [|exact H].
  destruct (Qle_bool _ 0); [exact H|].
  now apply IH.
Qed.

(** A payment that does not exceed the first month's interest is answered
    in the first month. *)
Lemma payoff_loop_interest_only (fuel : nat) :
  0 < balance -> payment <= balance * rate ->
  payoff_loop (S fuel) balance rate payment balance 0 0 = Some never_paid_off.
Proof.
  intros Hb Hp. simpl.
  assert (Hc : Qltb 0 balance = true) by now apply Qltb_lt.
  rewrite Hc. simpl.
  assert (Hle : Qle_bool (Qmin' (payment - balance * rate) balance) 0 = true).
  { apply Qle_bool_iff.
    pose proof (Qmin'_le_l (payment - balance * rate) balance). lra. }
  now rewrite Hle.
Qed.

End PayoffLoop.

Lemma calculatePayoff_total (balance apr monthlyPayment : Q) :
  exists r, CreditCard.calculatePayoff balance apr monthlyPayment = Some r
            /\ (CreditCard.months r <= 600)%nat.
Proof.
  unfold CreditCard.calculatePayoff.
  destruct (payoff_loop_total balance (CreditCard.monthlyRate apr)
              monthlyPayment 601 balance 0 0%nat) as [r [Hr Hm]]; [lia|].
  exists r. split; [exact Hr | apply Hm; lia].
Qed.

Lemma calculatePayoff_interest_only (balance apr monthlyPayment : Q) :
  0 < balance ->
  monthlyPayment <= balance * CreditCard.monthlyRate apr ->
  CreditCard.calculatePayoff balance apr monthlyPayment
  = Some CreditCard.never_paid_off.
Proof.
  intros Hb Hp. unfold CreditCard.calculatePayoff.
  now apply payoff_loop_interest_only.
Qed.

(** *** The interest-only threshold in binary64

    The primitive operations are specified bit by bit ([SpecFloat], through
    [Prim2SF]); what the loop needs of them is that a payment not above the
    interest leaves a difference not above zero. *)

Section Binary64Facts.

Lemma SFnonpos_leb (z : spec_float) :
  SFnonpos z = true -> SFleb z (S754_zero false) = true.
Proof.
  destruct z as [s|s| |s m e]; try destruct s; intro H;
    try discriminate H; reflexivity.
Qed.

(** Shifting and rounding a mantissa that is not negative leaves it so. *)
Lemma shr_1_nonneg (r : shr_record) :
  (0 <= shr_m r)%Z -> (0 <= shr_m (shr_1 r))%Z.
Proof.
  destruct r as [m r s]. simpl. intro H.
  destruct m as [|p|p]; [simpl; lia | | lia].
  destruct p; simpl; lia.
Qed.

Lemma iter_pos_shr_1_nonneg (p : positive) :
  forall r, (0 <= shr_m r)%Z ->
            (0 <= shr_m (SpecFloat.iter_pos shr_1 p r))%Z.
Proof.
  induction p as [p IH|p IH|]; intros r H; simpl.
  - apply IH, IH, shr_1_nonneg, H.
  - apply IH, IH, H.
  - apply shr_1_nonneg, H.
Qed.

Lemma shr_fexp_nonneg (m e : Z) (l : location) :
  (0 <= m)%Z -> (0 <= shr_m (fst (shr_fexp prec emax m e l)))%Z.
Proof.
  intro H. unfold shr_fexp, shr.
  assert (H0 : (0 <= shr_m (shr_record_of_loc m l))%Z).
  { destruct l as [|c]; [exact H | destruct c; exact H]. }
  destruct (fexp prec emax (Zdigits2 m + e) - e)%Z; simpl; try exact H0.
  now apply iter_pos_shr_1_nonneg.
Qed.

Lemma round_nearest_even_nonneg (m : Z) (l : location) :
  (0 <= m)%Z -> (0 <= round_nearest_even m l)%Z.
Proof.
  intro H. destruct l as [|c]; simpl; [exact H|].
  destruct c; [destruct (Z.even m) | |]; lia.
Qed.

(** A rounded negative number is not positive. *)
Lemma binary_round_neg (m : positive) (e : Z) :
  SFnonpos (binary_round prec emax true m e) = true.
Proof.
  unfold binary_round.
  destruct (shl_align m e _) as [mz ez].
  unfold binary_round_aux.
  pose proof (shr_fexp_nonneg (Zpos mz) ez loc_Exact) as H1.
  destruct (shr_fexp prec emax (Zpos mz) ez loc_Exact) as [mrs' e'].
  simpl in H1.
  pose proof (shr_fexp_nonneg
                (round_nearest_even (shr_m mrs') (loc_of_shr_record mrs'))
                e' loc_Exact) as H2.
  destruct (shr_fexp prec emax _ e' loc_Exact) as [mrs'' e''].
  simpl in H2.
  assert (H3 : (0 <= shr_m mrs'')%Z).
  { apply H2, round_nearest_even_nonneg, H1. lia. }
  destruct (shr_m mrs'') as [|p|p]; [reflexivity | | lia].
  destruct (e'' <=? emax - prec)%Z; reflexivity.
Qed.

Lemma binary_normalize_nonpos (m e : Z) :
  (m <= 0)%Z -> SFnonpos (binary_normalize prec emax m e false) = true.
Proof.
  intro H. destruct m as [|p|p]; [reflexivity | lia |].
  apply binary_round_neg.
Qed.

(** A mantissa of [d] binary digits lies between [2^(d-1)] and [2^d]. *)
Lemma digits2_pos_bounds (m : positive) :
  (2 ^ (Zpos (digits2_pos m) - 1) <= Zpos m < 2 ^ Zpos (digits2_pos m))%Z.
Proof.
  induction m as [m IH|m IH|]; simpl digits2_pos.
  - rewrite Pos2Z.inj_succ.
    replace (Z.succ (Zpos (digits2_pos m)) - 1)%Z
      with (Z.succ (Zpos (digits2_pos m) - 1))%Z by lia.
    rewrite !Z.pow_succ_r by lia. lia.
  - rewrite Pos2Z.inj_succ.
    replace (Z.succ (Zpos (digits2_pos m)) - 1)%Z
      with (Z.succ (Zpos (digits2_pos m) - 1))%Z by lia.
    rewrite !Z.pow_succ_r by lia. lia.
  - simpl. lia.
Qed.

(** The mantissa of a number of the format has at most 53 bits, and
    exactly 53 above the least exponent. *)
Lemma bounded_mantissa (m : positive) (e : Z) :
  bounded prec emax m e = true ->
  (Zpos m < 2 ^ 53)%Z
  /\ (-1074 <= e)%Z
  /\ (-1074 < e -> 2 ^ 52 <= Zpos m)%Z.
Proof.
  unfold bounded, canonical_mantissa, fexp, emin, prec, emax.
  intro H. apply andb_true_iff in H as [H _]. apply Z.eqb_eq in H.
  pose proof (digits2_pos_bounds m) as [Hlo Hhi].
  assert (Hd : (Zpos (digits2_pos m) <= 53)%Z) by lia.
  split; [|split].
  - apply Z.lt_le_trans with (1 := Hhi).
    apply Z.pow_le_mono_r; lia.
  - lia.
  - intro He.
    assert (Hd' : Zpos (digits2_pos m) = 53%Z) by lia.
    rewrite Hd' in Hlo. exact Hlo.
Qed.

(** Aligning a mantissa to a lower exponent multiplies it by the power of
    two between the exponents. *)
Lemma shl_align_value (m : positive) (e e' : Z) :
  (e' <= e)%Z ->
  Zpos (fst (shl_align m e e')) = (Zpos m * 2 ^ (e - e'))%Z.
Proof.
  intro H. unfold shl_align.
  destruct (e' - e)%Z as [|d|d] eqn:Hd; simpl fst.
  - replace (e - e')%Z with 0%Z by lia. simpl. lia.
  - lia.
  - change (Pos.iter xO m d) with (shift_pos d m).
    rewrite shift_pos_correct.
    replace (e - e')%Z with (Zpos d) by lia.
    rewrite Z.pow_pos_fold. lia.
Qed.

(** Two numbers of the format in increasing order have aligned mantissas
    in increasing order. *)
Lemma SFleb_aligned (s1 s2 : bool) (m1 m2 : positive) (e1 e2 : Z) :
  bounded prec emax m1 e1 = true ->
  bounded prec emax m2 e2 = true ->
  SFleb (S754_finite s1 m1 e1) (S754_finite s2 m2 e2) = true ->
  (cond_Zopp s1 (Zpos (fst (shl_align m1 e1 (Z.min e1 e2))))
   - cond_Zopp s2 (Zpos (fst (shl_align m2 e2 (Z.min e1 e2)))) <= 0)%Z.
Proof.
  intros B1 B2 Hle.
  rewrite !shl_align_value by lia.
  destruct (bounded_mantissa m1 e1 B1) as [U1 [L1 N1]].
  destruct (bounded_mantissa m2 e2 B2) as [U2 [L2 N2]].
  assert (P1 : (0 < 2 ^ (e1 - Z.min e1 e2))%Z)
    by (apply Z.pow_pos_nonneg; lia).
  assert (P2 : (0 < 2 ^ (e2 - Z.min e1 e2))%Z)
    by (apply Z.pow_pos_nonneg; lia).
  unfold SFleb, SFcompare in Hle.
  destruct s1, s2; cbn [cond_Zopp].
  - (* both negative *)
    destruct (Z.compare_spec e1 e2) as [He|He|He]; try discriminate.
    + subst e2. rewrite Z.min_id, Z.sub_diag. change (2 ^ 0)%Z with 1%Z.
      rewrite Pos.compare_cont_spec in Hle. simpl in Hle.
      destruct (Pos.compare_spec m1 m2) as [Hm|Hm|Hm];
        simpl in Hle; try discriminate; lia.
    + rewrite Z.min_r by lia. rewrite Z.sub_diag. change (2 ^ 0)%Z with 1%Z.
      assert (H2 : (2 <= 2 ^ (e1 - e2))%Z).
      { change 2%Z with (2 ^ 1)%Z at 1. apply Z.pow_le_mono_r; lia. }
      assert (H52 : (2 ^ 52 <= Zpos m1)%Z) by (apply N1; lia).
      assert (H53 : (2 ^ 53 = 2 ^ 52 * 2)%Z) by reflexivity.
      assert (Hprod : (2 ^ 52 * 2 <= Zpos m1 * 2 ^ (e1 - e2))%Z)
        by (apply Z.mul_le_mono_nonneg; lia).
      lia.
  - (* negative, positive *) lia.
  - discriminate.
  - (* both positive *)
    destruct (Z.compare_spec e1 e2) as [He|He|He]; try discriminate.
    + subst e2. rewrite Z.min_id, Z.sub_diag. change (2 ^ 0)%Z with 1%Z.
      rewrite Pos.compare_cont_spec in Hle. simpl in Hle.
      destruct (Pos.compare_spec m1 m2) as [Hm|Hm|Hm];
        simpl in Hle; try discriminate; lia.
    + rewrite Z.min_l by lia. rewrite Z.sub_diag. change (2 ^ 0)%Z with 1%Z.
      assert (H2 : (2 <= 2 ^ (e2 - e1))%Z).
      { change 2%Z with (2 ^ 1)%Z at 1. apply Z.pow_le_mono_r; lia. }
      assert (H52 : (2 ^ 52 <= Zpos m2)%Z) by (apply N2; lia).
      assert (H53 : (2 ^ 53 = 2 ^ 52 * 2)%Z) by reflexivity.
      assert (Hprod : (2 ^ 52 * 2 <= Zpos m2 * 2 ^ (e2 - e1))%Z)
        by (apply Z.mul_le_mono_nonneg; lia).
      lia.
Qed.

(** [x <= y] makes [x - y] zero or negative, unless [x] is infinite. *)
Lemma SFsub_nonpos (x y : spec_float) :
  valid_binary x = true -> valid_binary y = true ->
  match x with S754_infinity _ => False | _ => True end ->
  SFleb x y = true ->
  SFnonpos (SF64sub x y) = true.
Proof.
  intros Vx Vy Hfin Hle.
  destruct x as [sx|sx| |sx mx ex]; try contradiction; try discriminate.
  - destruct y as [sy|sy| |sy my ey]; try discriminate.
    + destruct sx, sy; reflexivity.
    + destruct sy; [discriminate | reflexivity].
    + destruct sy; [discriminate | reflexivity].
  - destruct y as [sy|sy| |sy my ey]; try discriminate.
    + destruct sx; [reflexivity | discriminate].
    + destruct sy; [discriminate | reflexivity].
    + unfold SF64sub, SFsub. apply binary_normalize_nonpos.
      now apply SFleb_aligned.
Qed.

Lemma SFeqb_refl (z : spec_float) :
  z <> S754_nan -> SFeqb z z = true.
Proof.
  destruct z as [s|s| |s m e]; intro H; try congruence.
  - reflexivity.
  - destruct s; reflexivity.
  - unfold SFeqb, SFcompare.
    destruct s; rewrite Z.compare_refl, Pos.compare_cont_refl; reflexivity.
Qed.

(** A number of binary64 that is not infinite and not above [y] has a
    difference to [y] that is not above zero. *)
Lemma float_sub_nonpos (x y : float) :
  PrimFloat.is_finite x = true -> (x <=? y)%float = true ->
  (x - y <=? 0)%float = true.
Proof.
  intros Hfin Hle.
  rewrite FloatAxioms.leb_spec in Hle.
  rewrite FloatAxioms.leb_spec, FloatAxioms.sub_spec.
  change (Prim2SF 0) with (S754_zero false).
  apply SFnonpos_leb, SFsub_nonpos; try apply Prim2SF_valid; [|exact Hle].
  unfold PrimFloat.is_finite, is_infinity in Hfin.
  rewrite FloatAxioms.eqb_spec, FloatAxioms.abs_spec in Hfin.
  change (Prim2SF infinity) with (S754_infinity false) in Hfin.
  destruct (Prim2SF x) as [s|s| |s m e]; try exact I.
  simpl in Hfin. rewrite orb_true_r in Hfin. discriminate.
Qed.

(** [Math.min] of a number not above zero and a positive number is the
    former. *)
Lemma Math_min_nonpos (z b : float) :
  (z <=? 0)%float = true -> (0 <? b)%float = true ->
  (JsFloat.Math_min z b <=? 0)%float = true.
Proof.
  intros Hz Hb.
  assert (Hmin : JsFloat.Math_min z b = z); [|now rewrite Hmin].
  unfold JsFloat.Math_min, PrimFloat.is_nan.
  rewrite FloatAxioms.leb_spec in Hz. rewrite FloatAxioms.ltb_spec in Hb.
  rewrite !FloatAxioms.eqb_spec, FloatAxioms.ltb_spec.
  change (Prim2SF 0) with (S754_zero false) in Hz, Hb.
  assert (Nz : Prim2SF z <> S754_nan)
    by (intro E; rewrite E in Hz; discriminate).
  assert (Nb : Prim2SF b <> S754_nan)
    by (intro E; rewrite E in Hb; discriminate).
  rewrite (SFeqb_refl _ Nz), (SFeqb_refl _ Nb). cbn [negb orb].
  assert (Hlt : SFltb (Prim2SF z) (Prim2SF b) = true); [|now rewrite Hlt].
  destruct (Prim2SF z) as [sz|sz| |sz mz ez];
    destruct (Prim2SF b) as [sb|sb| |sb mb eb];
    try destruct sz; try destruct sb; try discriminate; reflexivity.
Qed.

End Binary64Facts.

Section PayoffLoop64.

Import CreditCard64.

Variables balance rate payment : float.

(** The binary64 loop answers, and with at most 600 months, whenever the
    fuel covers the months still allowed. *)
Lemma payoff_loop64_total (fuel : nat) :
  forall (remaining paid : float) (m : nat),
    (600 - m < fuel)%nat ->
    exists r, payoff_loop fuel balance rate payment remaining paid m = Some r
              /\ (m <= 600 -> months r <= 600)%nat.
Proof.
  induction fuel as [|fuel IH]; intros remaining paid m Hfuel; [lia|].
  cbn [payoff_loop].
  destruct ((0 <? remaining)%float && (m <? 600)%nat) eqn:Hcond.
  - apply andb_true_iff in Hcond as [_ Hm]. apply Nat.ltb_lt in Hm.
    destruct (_ <=? 0)%float.
    + exists never_paid_off. split; [reflexivity | simpl; lia].
    + destruct (IH (remaining
                    - JsFloat.Math_min (payment - remaining * rate)
                        remaining)%float
                   (paid + payment)%float (S m)) as [r [Hr Hle]]; [lia|].
      exists r. split; [exact Hr | lia].
  - eexists. split; [reflexivity | simpl; lia].
Qed.

(** A finite payment that does not exceed the first month's interest, as
    computed, is answered in the first month. *)
Lemma payoff_loop64_interest_only (fuel : nat) :
  (0 <? balance)%float = true ->
  PrimFloat.is_finite payment = true ->
  (payment <=? balance * rate)%float = true ->
  payoff_loop (S fuel) balance rate payment balance 0 0
  = Some never_paid_off.
Proof.
  intros Hb Hfin Hp. cbn [payoff_loop].
  rewrite Hb. cbn [andb Nat.ltb Nat.leb].
  rewrite Math_min_nonpos; [reflexivity | | exact Hb].
  now apply float_sub_nonpos.
Qed.

End PayoffLoop64.

Lemma calculatePayoff64_unfold (balance apr monthlyPayment : float) :
  CreditCard64.calculatePayoff balance apr monthlyPayment
  = CreditCard64.payoff_loop 601 balance (CreditCard64.monthlyRate apr)
      monthlyPayment balance 0 0.
Proof. reflexivity. Qed.

(** C1, as the code has it, every operation of [calculatePayoff] rounded as
    binary64 rounds it: for every balance, APR and monthly payment (NaN and
    the infinities included) the payoff iteration answers, with at most 600
    months (no unbounded loop, no exception); for a positive balance, a
    finite payment at or below the interest of the first month as the code
    computes it ([payment <= balance * monthlyRate] with the product
    rounded) is answered with the one fixed object
    [{ months: 600, totalPaid: Infinity, totalInterest: Infinity }].  The
    interest compared with is the rounded one: at a balance of 8000 and an
    APR of 15 it is computed just below 100, so the payment 100, which
    equals the exact product [8000 * 0.0125], is not answered with that
    object but with 600 months and 60000 paid. *)
Theorem calculatePayoff_nonconvergent (balance apr monthlyPayment : float) :
  (exists r, CreditCard64.calculatePayoff balance apr monthlyPayment = Some r
             /\ (CreditCard64.months r <= 600)%nat)
  /\ ((0 <? balance)%float = true ->
      PrimFloat.is_finite monthlyPayment = true ->
      (monthlyPayment <=? balance * CreditCard64.monthlyRate apr)%float = true ->
      CreditCard64.calculatePayoff balance apr monthlyPayment
      = Some CreditCard64.never_paid_off)
  /\ ((8000 * CreditCard64.monthlyRate 15 <? 100)%float = true
      /\ CreditCard64.calculatePayoff 8000 15 100
         = Some {| CreditCard64.months := 600;
                   CreditCard64.totalPaid := 60000;
                   CreditCard64.totalInterest := 52000 |}).
Proof.
  split; [|split].
  - rewrite calculatePayoff64_unfold.
    destruct (payoff_loop64_total balance (CreditCard64.monthlyRate apr)
                monthlyPayment 601 balance 0%float 0%nat) as [r [Hr Hm]]; [lia|].
    exists r. split; [exact Hr | apply Hm; lia].
  - intros Hb Hf Hp. rewrite calculatePayoff64_unfold.
    now apply payoff_loop64_interest_only.
  - split; vm_compute; reflexivity.
Qed.

Lemma calculatePayoff_nonconvergent_witness :
  (0 <? 5000)%float = true
  /\ PrimFloat.is_finite 100 = true
  /\ (100 <=? 5000 * CreditCard64.monthlyRate 30)%float = true
  /\ CreditCard64.calculatePayoff 5000 30 100
     = Some CreditCard64.never_paid_off.
Proof.
  assert (Hb : (0 <? 5000)%float = true) by reflexivity.
  assert (Hf : PrimFloat.is_finite 100 = true) by reflexivity.
  assert (Hp : (100 <=? 5000 * CreditCard64.monthlyRate 30)%float = true)
    by reflexivity.
  split; [exact Hb | split; [exact Hf | split; [exact Hp |]]].
  exact (proj1 (proj2 (calculatePayoff_nonconvergent 5000 30 100)) Hb Hf Hp).
Defined.

(** C1, as stated, fails: the answer to a payment at or below the interest
    is the same object for every debt (here 5000 and 15000 at 30% APR, with
    a payment of 100, in exact arithmetic and in binary64 alike), so no
    payment that would converge can be read off it: whatever payment a
    reading extracts, some debt answers that payment with the same object
    again. *)
Lemma calculatePayoff_carries_no_minimum :
  CreditCard.calculatePayoff 5000 30 100 = Some CreditCard.never_paid_off
  /\ CreditCard.calculatePayoff 15000 30 100 = Some CreditCard.never_paid_off
  /\ ~ (exists minimum_of, CreditCard.carries_converging_payment minimum_of)
  /\ CreditCard64.calculatePayoff 5000 30 100
     = Some CreditCard64.never_paid_off
  /\ CreditCard64.calculatePayoff 15000 30 100
     = Some CreditCard64.never_paid_off.
Proof.
  split; [reflexivity | split; [reflexivity |]].
  split; [|split; vm_compute; reflexivity].
  intros [minimum_of H].
  set (p := minimum_of CreditCard.never_paid_off).
  set (b := Qmax' 1 (p * 40) + 40).
  assert (Hrate : CreditCard.monthlyRate 30 == 1 # 40) by reflexivity.
  assert (Hb : 0 < b) by (pose proof (Qmax'_ge_l 1 (p * 40)); subst b; lra).
  assert (Hp : p <= b * CreditCard.monthlyRate 30).
  { rewrite Hrate. pose proof (Qmax'_ge_r 1 (p * 40)). subst b. lra. }
  assert (H0 : 0 <= b * CreditCard.monthlyRate 30) by (rewrite Hrate; lra).
  apply (H b 30 0 CreditCard.never_paid_off Hb H0).
  - now apply calculatePayoff_interest_only.
  - now apply calculatePayoff_interest_only.
Qed.

(* ================================================================== *)
(** ** Budget-builder score *)

Section BudgetScore.

Import BudgetBuilder.

(** A bucket that sits on its target has no deviation and the full score. *)
Lemma spec_bucket_on_target (actual : num) (target penalty : Q) :
  actual =n= Fin target ->
  spec_deviation actual (Fin target) =n= Fin 0
  /\ spec_bucket_score actual (Fin target) (Fin penalty) =n= Fin 100.
Proof.
  unfold spec_bucket_score, spec_deviation.
  destruct actual as [q| | |]; cbn [num_eq sub add opp abs mul max];
    try contradiction.
  intro Hq.
  assert (Hdev : Qabs (q + - target) == 0).
  { assert (Hz : q + - target == 0) by lra. rewrite Hz. reflexivity. }
  split; [exact Hdev|].
  destruct (Qmax'_spec 0 (100 + - (Qabs (q + - target) * penalty)))
    as [[_ ->]|[Hlt _]].
  - rewrite Hdev. lra.
  - rewrite Hdev in Hlt. lra.
Qed.

(** A finite bucket score lies between 0 and 100. *)
Lemma spec_bucket_bounds (actual target penalty : Q) :
  0 <= penalty ->
  exists s, spec_bucket_score (Fin actual) (Fin target) (Fin penalty) = Fin s
            /\ 0 <= s <= 100.
Proof.
  intro Hk. unfold spec_bucket_score, spec_deviation.
  cbn [sub add opp abs mul max]. eexists. split; [reflexivity|].
  pose proof (Qabs_nonneg (actual + - target)) as Ha.
  pose proof (Qmult_le_0_compat _ _ Ha Hk) as Hm.
  destruct (Qmax'_spec 0 (100 + - (Qabs (actual + - target) * penalty)))
    as [[H ->]|[H ->]]; lra.
Qed.

End BudgetScore.

Section BudgetAmounts.

Import BudgetBuilder64.







End BudgetAmounts.



(* ================================================================== *)
(** ** XP award *)

(** C3: a completion with raw score 100, on the first attempt, with a
    streak of 7 days before the event, on a simulation whose base XP is
    100, awards [round(100 * (1 + 0.20 + 0.50 + 0.25)) = 195] XP; the
    bonuses are percentages of the base that add up (for every event the
    award is the rounded sum of the base and of each bonus share of the
    base), and are not compounded (compounding would give 225). *)
Theorem award_xp_additive :
  Progression.award_xp 100 100 true 7 = 195%Z
  /\ Progression.award_xp 100 100 true 7
     = Qround_half_up (100 * (1 + 0.20 + 0.50 + 0.25))
  /\ (forall base raw_score is_first_attempt current_streak_days,
         Progression.award_xp base raw_score is_first_attempt
           current_streak_days
         = Qround_half_up
             (base
              + base * Progression.first_attempt_bonus is_first_attempt
              + base * Progression.perfect_score_bonus raw_score
              + base * Progression.streak_bonus current_streak_days))
  /\ Progression.compounded_xp 100 100 true 7 = 225%Z.
Proof.
  split; [reflexivity|]. split; [reflexivity|]. split; [|reflexivity].
  intros base raw_score is_first_attempt current_streak_days.
  unfold Progression.award_xp, Qround_half_up.
  apply Qfloor_comp. ring.
Qed.

(* ================================================================== *)
(** ** Future value of a series of payments *)

Section FutureValue.

Import CoffeeShop.

Lemma Qpower_succ_nat (a : Q) (n : nat) :
  a ^ Z.of_nat (S n) == a ^ Z.of_nat n * a.
Proof.
  rewrite Nat2Z.inj_succ. unfold Z.succ.
  rewrite Qpower_plus' by lia. simpl (a ^ 1). ring.
Qed.

(** With a non-zero rate the closed form is the sum of the compounded
    payments. *)
Lemma closed_form_future_value (pmt rate : Q) (periods : nat) :
  ~ rate == 0 ->
  pmt * (((1 + rate) ^ Z.of_nat periods + - (1)) / rate)
  == spec_future_value_of_series pmt rate periods.
Proof.
  intro Hr. induction periods as [|n IH].
  - simpl. field. exact Hr.
  - cbn [spec_future_value_of_series]. rewrite <- IH.
    rewrite Qpower_succ_nat. field. exact Hr.
Qed.

Lemma calculateFutureValue_nonzero_rate (pmt rate : Q) (years : nat) :
  ~ rate == 0 ->
  calculateFutureValue pmt rate years
  =n= Fin (spec_future_value_of_series pmt rate years).
Proof.
  intro Hr. unfold calculateFutureValue.
  destruct years as [|n]; [simpl; reflexivity|].
  cbn [Nat.eqb pow sub add opp div mul].
  assert (Hs : Qsign rate <> Eq).
  { unfold Qsign. intro H. apply Qeq_alt in H. apply Hr. now symmetry. }
  destruct (Qsign rate); [congruence| |];
    cbn [mul num_eq]; now apply closed_form_future_value.
Qed.

Lemma calculateFutureValue_zero_rate (pmt rate : Q) (years : nat) :
  rate == 0 -> years <> O ->
  calculateFutureValue pmt rate years = NaN.
Proof.
  intros Hr Hy. unfold calculateFutureValue.
  destruct years as [|n]; [congruence|].
  cbn [Nat.eqb pow sub add opp div mul].
  rewrite (Qsign_zero rate Hr).
  assert (Hone : (1 + rate) ^ Z.of_nat (S n) + - (1) == 0).
  { rewrite Hr. change (1 + 0) with 1. rewrite Qpower_1. reflexivity. }
  rewrite (Qsign_zero _ Hone). reflexivity.
Qed.

End FutureValue.

(** C4, as the code has it: for every payment and number of periods,
    [calculateFutureValue] at a non-zero rate is the future value of the
    series (the payments compounded to the horizon), and the calculators
    call it with the fixed rate 0.08; the rate term is not guarded, so at
    rate 0 it returns [pmt * years] only for [years = 0], where the guard
    on the years answers 0, and NaN for every positive number of
    periods. *)
Theorem calculateFutureValue_rate_term (pmt rate : Q) (years : nat) :
  (~ rate == 0 ->
   CoffeeShop.calculateFutureValue pmt rate years
   =n= Fin (CoffeeShop.spec_future_value_of_series pmt rate years))
  /\ (rate == 0 ->
      (CoffeeShop.calculateFutureValue pmt rate years
       =n= Fin (pmt * inject_Z (Z.of_nat years))
       <-> years = 0%nat)
      /\ (years <> 0%nat ->
          CoffeeShop.calculateFutureValue pmt rate years = NaN))
  /\ CoffeeShop.investedAt years
     =n= Fin (CoffeeShop.spec_future_value_of_series
                CoffeeShop.annualCost 0.08 years).
Proof.
  split; [apply calculateFutureValue_nonzero_rate|]. split.
  - intro Hr. split; [split|].
    + intro H. destruct years as [|n]; [reflexivity|].
      rewrite (calculateFutureValue_zero_rate pmt rate (S n) Hr) in H
        by discriminate.
      contradiction.
    + intros ->. simpl. ring.
    + now apply calculateFutureValue_zero_rate.
  - apply calculateFutureValue_nonzero_rate. discriminate.
Qed.

Lemma calculateFutureValue_rate_term_witness :
  ~ 0.08 == 0
  /\ CoffeeShop.calculateFutureValue 1430 0.08 10
     =n= Fin (CoffeeShop.spec_future_value_of_series 1430 0.08 10).
Proof.
  assert (Hr : ~ 0.08 == 0) by discriminate.
  split; [exact Hr|].
  exact (proj1 (calculateFutureValue_rate_term 1430 0.08 10) Hr).
Defined.

(** C4, as stated, fails: at rate 0 over 10 periods the function divides
    zero by zero and returns NaN, not [1430 * 10]. *)
Lemma calculateFutureValue_zero_rate_is_nan :
  CoffeeShop.calculateFutureValue 1430 0 10 = NaN
  /\ ~ (CoffeeShop.calculateFutureValue 1430 0 10 =n= Fin (1430 * 10)).
Proof.
  split; [reflexivity|]. intro H. exact H.
Qed.

(* ================================================================== *)
(** ** Coffee-shop score *)

Lemma accuracyPercent_bounds (userGuess : Q) :
  0 <= CoffeeShop.accuracyPercent userGuess <= 100.
Proof.
  unfold CoffeeShop.accuracyPercent.
  set (d := Qabs (CoffeeShop.actualCost - userGuess)).
  assert (Hd : 0 <= d) by apply Qabs_nonneg.
  assert (Hc : CoffeeShop.actualCost == 1430) by reflexivity.
  assert (Hq : d / CoffeeShop.actualCost * 100 == d * (10 # 143)).
  { rewrite Hc. field. }
  destruct (Qmax'_spec 0 (100 - d / CoffeeShop.actualCost * 100))
    as [[H ->]|[H ->]]; lra.
Qed.

(** C5: with a daily cost of 5.50 on 5 days a week over 52 weeks the
    annual cost is 1430; for every guess [g] the score is
    [round(max(0, 100 - |1430 - g| / 1430 * 100))], which lies between 0
    and 100; and a guess of 500 scores 35 (the unrounded accuracy lies
    between 34.9 and 35). *)
Theorem score_of_guess :
  CoffeeShop.annualCost == 1430
  /\ CoffeeShop.actualCost == 1430
  /\ (forall g : Q,
         CoffeeShop.score g
         = Qround_half_up (Qmax' 0 (100 - Qabs (1430 - g) / 1430 * 100))
         /\ (0 <= CoffeeShop.score g <= 100)%Z)
  /\ CoffeeShop.score 500 = 35%Z
  /\ 34.9 < CoffeeShop.accuracyPercent 500 < 35.
Proof.
  split; [reflexivity|]. split; [reflexivity|]. split.
  - intro g. split.
    + unfold CoffeeShop.score, CoffeeShop.accuracyPercent, Qround_half_up.
      apply Qfloor_comp.
      assert (Hc : CoffeeShop.actualCost == 1430) by reflexivity.
      apply Qplus_comp; [|reflexivity].
      apply Qmax'_compat; [reflexivity|].
      rewrite Hc. reflexivity.
    + destruct (accuracyPercent_bounds g) as [Hlo Hhi].
      unfold CoffeeShop.score. split.
      * change 0%Z with (Qround_half_up 0).
        now apply Qround_half_up_mono.
      * change 100%Z with (Qround_half_up 100).
        now apply Qround_half_up_mono.
  - split; [reflexivity|]. split; reflexivity.
Qed.

(* ================================================================== *)
(** ** Level table *)

Section LevelTable.

Import Progress.

(** [spec_level_of_xp] is the greatest level of the table within reach:
    the level it names is one of the table's, within reach, and no level
    within reach is greater. *)
Lemma spec_level_fold (total_xp : Z) (table : list Level) :
  forall best k,
    fold_left (better total_xp) table best = Some k ->
    (best = Some k
     \/ exists l, In l table /\ level l = k /\ (minXP l <= total_xp)%Z)
    /\ (forall b, best = Some b -> (b <= k)%Z)
    /\ (forall l, In l table -> (minXP l <= total_xp)%Z -> (level l <= k)%Z).
Proof.
  induction table as [|l table IH]; intros best k Hk; simpl in Hk.
  - split; [now left|]. split.
    + intros b Hb. rewrite Hb in Hk. injection Hk as ->. lia.
    + intros l [].
  - destruct (IH _ _ Hk) as [Hin [Hbest Hall]].
    unfold better in Hin, Hbest.
    destruct (minXP l <=? total_xp)%Z eqn:Hreach.
    + apply Z.leb_le in Hreach. split; [|split].
      * destruct Hin as [Hin | [l' [Hl' Hrest]]].
        -- destruct best as [b|]; injection Hin as Hin.
           ++ destruct (Z.max_spec b (level l)) as [[_ Hm]|[_ Hm]].
              ** right. exists l. split; [now left|]. split; [lia|assumption].
              ** left. f_equal. lia.
           ++ right. exists l. split; [now left|]. split; [lia|assumption].
        -- right. exists l'. split; [now right|assumption].
      * intros b ->. specialize (Hbest _ eq_refl). lia.
      * intros l' [<-|Hl'] Hr'.
        -- destruct best as [b|]; specialize (Hbest _ eq_refl); lia.
        -- now apply Hall.
    + apply Z.leb_gt in Hreach. split; [|split].
      * destruct Hin as [Hin | [l' [Hl' Hrest]]]; [now left|].
        right. exists l'. split; [now right|assumption].
      * exact Hbest.
      * intros l' [<-|Hl'] Hr'; [lia|now apply Hall].
Qed.

Lemma spec_level_of_xp_greatest (table : list Level) (total_xp k : Z) :
  spec_level_of_xp table total_xp = Some k ->
  (exists l, In l table /\ level l = k /\ (minXP l <= total_xp)%Z)
  /\ (forall l, In l table -> (minXP l <= total_xp)%Z -> (level l <= k)%Z).
Proof.
  intro H. destruct (spec_level_fold total_xp table None k H)
    as [[Hn|Hex] [_ Hall]]; [discriminate|]. now split.
Qed.

End LevelTable.

(** C6, as the code has it: both level tables (the progress page's and the
    roadmap's) are ordered with strictly increasing minimum XP and start at
    0; the progress page displays the level stored in the user data and
    looks its row up by that stored level, without deriving it from the XP
    total; for the user data the page ships with (1250 XP, level 2) the
    stored level is the greatest level whose minimum XP is at most the XP
    total. *)
Theorem level_table_ordered_level_stored :
  Progress.strictly_increasing (map Progress.minXP Progress.levels) = true
  /\ hd_error (map Progress.minXP Progress.levels) = Some 0%Z
  /\ Progress.strictly_increasing (map snd Progress.roadmapLevels) = true
  /\ hd_error (map snd Progress.roadmapLevels) = Some 0%Z
  /\ (forall u l,
         Progress.currentLevelData u = Some l ->
         Progress.level l = Progress.displayedLevel u
         /\ Progress.displayedLevel u = Progress.currentLevel u)
  /\ Progress.spec_level_of_xp Progress.levels
       (Progress.currentXP Progress.userData)
     = Some (Progress.displayedLevel Progress.userData).
Proof.
  repeat (split; [reflexivity|]). split; [|reflexivity].
  intros u l H. split; [|reflexivity].
  unfold Progress.currentLevelData in H.
  apply find_some in H as [_ H]. now apply Z.eqb_eq in H.
Qed.

(** C6, as stated, fails: the level is a field of the user data of its
    own, and the page reads it; for user data with 5000 XP stored at level
    2 the page displays level 2 (row Money Learner), while the greatest
    level whose minimum XP is at most 5000 is level 4. *)
Lemma stored_level_can_disagree :
  Progress.displayedLevel
    {| Progress.currentXP := 5000; Progress.currentLevel := 2 |} = 2%Z
  /\ option_map Progress.name
       (Progress.currentLevelData
          {| Progress.currentXP := 5000; Progress.currentLevel := 2 |})
     = Some "Money Learner"%string
  /\ Progress.spec_level_of_xp Progress.levels 5000 = Some 4%Z
  /\ ~ (forall u,
           Progress.spec_level_of_xp Progress.levels (Progress.currentXP u)
           = Some (Progress.displayedLevel u)).
Proof.
  repeat (split; [reflexivity|]).
  intro H.
  specialize (H {| Progress.currentXP := 5000; Progress.currentLevel := 2 |}).
  discriminate H.
Qed.

(* ================================================================== *)
(** ** Emergency-fund race *)

Section Race.

Import EmergencyFund.

(** The schedule answers exactly at the months of its four events. *)
Lemma emergencyOf_month (m : nat) (e : Emergency) :
  emergencyOf m = Some e -> In e emergencyEvents /\ month e = m.
Proof.
  unfold emergencyOf. intro H. apply find_some in H as [Hin Hm].
  split; [exact Hin | now apply Nat.eqb_eq].
Qed.

Lemma emergencyOf_event (e : Emergency) :
  In e emergencyEvents -> emergencyOf (month e) = Some e.
Proof.
  intro H. repeat (destruct H as [<-|H]; [reflexivity|]). destruct H.
Qed.

(** A month before month 12 advances the month and records the month's
    emergency, if it has one. *)
Lemma step_records (s : Race) :
  (currentMonth s < 12)%nat ->
  exists s', step s = Some s'
             /\ currentMonth s' = S (currentMonth s)
             /\ emergencies s' = emergencies s ++ scheduled (currentMonth s) 1.
Proof.
  intro Hm. unfold step. apply Nat.leb_gt in Hm. rewrite Hm.
  unfold scheduled. cbn [seq flat_map].
  destruct (emergencyOf (currentMonth s)) as [e|].
  - eexists. split; [reflexivity|]. split; reflexivity.
  - eexists. split; [reflexivity|]. split; [reflexivity|].
    cbn [emergencies app]. now rewrite app_nil_r.
Qed.

Lemma scheduled_cons (m n : nat) :
  scheduled m (S n) = scheduled m 1 ++ scheduled (S m) n.
Proof.
  unfold scheduled. cbn [seq flat_map]. now rewrite app_nil_r.
Qed.

(** The months and the recorded emergencies do not depend on the
    characters: with enough fuel for the months left, the race ends at
    month 12 with the remaining months' emergencies recorded. *)
Lemma run_records (n : nat) :
  forall (fuel : nat) (s : Race),
    (currentMonth s + n = 12)%nat -> (n <= fuel)%nat ->
    exists s', run fuel s = Some s'
               /\ currentMonth s' = 12%nat
               /\ emergencies s'
                  = emergencies s ++ scheduled (currentMonth s) n.
Proof.
  induction n as [|n IH]; intros fuel s Hmonth Hfuel.
  - exists s. rewrite Nat.add_0_r in Hmonth.
    assert (Hstop : step s = None).
    { unfold step. now rewrite Hmonth. }
    destruct fuel; cbn [run]; rewrite Hstop;
      (split; [reflexivity|split; [exact Hmonth|]]);
      unfold scheduled; cbn [seq flat_map]; now rewrite app_nil_r.
  - destruct (step_records s) as [s1 [Hstep [Hm1 He1]]]; [lia|].
    destruct fuel as [|fuel]; [lia|].
    destruct (IH fuel s1) as [s' [Hrun [Hm' He']]]; [lia|lia|].
    exists s'. cbn [run]. rewrite Hstep.
    split; [exact Hrun|]. split; [exact Hm'|].
    rewrite He', He1, Hm1, (scheduled_cons (currentMonth s) n).
    symmetry. apply app_assoc.
Qed.

Lemma run_records_schedule (s : Race) :
  currentMonth s = 0%nat -> emergencies s = [] ->
  exists s', run 12 s = Some s'
             /\ currentMonth s' = 12%nat
             /\ emergencies s' = emergencyEvents.
Proof.
  intros Hm He.
  destruct (run_records 12 12 s) as [s' [Hrun [Hm' He']]]; [lia|lia|].
  exists s'. split; [exact Hrun|]. split; [exact Hm'|].
  rewrite He', He, Hm. reflexivity.
Qed.

End Race.

(** C7: the race walks one fixed schedule (emergencies at months 2, 5, 8
    and 11 costing 800, 1200, 600 and 900; every race from month 0 records
    exactly these, in order, and ends at month 12); on an emergency month
    the actor with a fund pays the cost from the fund when the fund covers
    it, and otherwise the fund drops to zero and the shortfall is added to
    the debt, while the actor without a fund adds the full cost to a debt
    that grows by 1.8% in every normal month it is positive. *)
Theorem emergency_schedule_and_rules :
  map (fun e => (EmergencyFund.month e, EmergencyFund.cost e))
      EmergencyFund.emergencyEvents
  = [(2%nat, 800); (5%nat, 1200); (8%nat, 600); (11%nat, 900)]
  /\ (forall m e,
         EmergencyFund.emergencyOf m = Some e <->
         In e EmergencyFund.emergencyEvents /\ EmergencyFund.month e = m)
  /\ (forall s,
         EmergencyFund.currentMonth s = 0%nat ->
         EmergencyFund.emergencies s = [] ->
         exists s', EmergencyFund.run 12 s = Some s'
                    /\ EmergencyFund.currentMonth s' = 12%nat
                    /\ EmergencyFund.emergencies s'
                       = EmergencyFund.emergencyEvents)
  /\ (forall s e,
         (EmergencyFund.currentMonth s < 12)%nat ->
         EmergencyFund.emergencyOf (EmergencyFund.currentMonth s) = Some e ->
         exists s',
           EmergencyFund.step s = Some s'
           /\ (EmergencyFund.cost e
               <= EmergencyFund.emergencyFund (EmergencyFund.sarah s) ->
               EmergencyFund.emergencyFund (EmergencyFund.sarah s')
               = EmergencyFund.emergencyFund (EmergencyFund.sarah s)
                 - EmergencyFund.cost e
               /\ EmergencyFund.debt (EmergencyFund.sarah s')
                  = EmergencyFund.debt (EmergencyFund.sarah s))
           /\ (EmergencyFund.emergencyFund (EmergencyFund.sarah s)
               < EmergencyFund.cost e ->
               EmergencyFund.emergencyFund (EmergencyFund.sarah s') = 0
               /\ EmergencyFund.debt (EmergencyFund.sarah s')
                  = EmergencyFund.debt (EmergencyFund.sarah s)
                    + (EmergencyFund.cost e
                       - EmergencyFund.emergencyFund (EmergencyFund.sarah s)))
           /\ EmergencyFund.debt (EmergencyFund.mike s')
              = EmergencyFund.debt (EmergencyFund.mike s)
                + EmergencyFund.cost e)
  /\ (forall s,
         (EmergencyFund.currentMonth s < 12)%nat ->
         EmergencyFund.emergencyOf (EmergencyFund.currentMonth s) = None ->
         0 < EmergencyFund.debt (EmergencyFund.mike s) ->
         exists s',
           EmergencyFund.step s = Some s'
           /\ EmergencyFund.debt (EmergencyFund.mike s')
              = EmergencyFund.debt (EmergencyFund.mike s)
                + EmergencyFund.debt (EmergencyFund.mike s) * 0.018).
Proof.
  split; [reflexivity|]. split; [|split; [|split]].
  - intros m e. split.
    + apply emergencyOf_month.
    + intros [Hin <-]. now apply emergencyOf_event.
  - apply run_records_schedule.
  - intros s e Hm He. unfold EmergencyFund.step.
    apply Nat.leb_gt in Hm. rewrite Hm, He.
    eexists. split; [reflexivity|]. cbn [EmergencyFund.sarah EmergencyFund.mike].
    unfold EmergencyFund.sarahEmergency, EmergencyFund.mikeEmergency.
    split; [|split; [|reflexivity]].
    + intro Hc. apply Qle_bool_iff in Hc. rewrite Hc. split; reflexivity.
    + intro Hc. apply Qle_bool_gt in Hc. rewrite Hc. split; reflexivity.
  - intros s Hm He Hd. unfold EmergencyFund.step.
    apply Nat.leb_gt in Hm. rewrite Hm, He.
    eexists. split; [reflexivity|]. cbn [EmergencyFund.mike].
    unfold EmergencyFund.mikeNormal. cbn [EmergencyFund.debt].
    apply Qltb_lt in Hd. now rewrite Hd.
Qed.

Lemma emergency_schedule_and_rules_witness :
  exists s',
    EmergencyFund.run 12 EmergencyFund.initialRace = Some s'
    /\ EmergencyFund.currentMonth s' = 12%nat
    /\ EmergencyFund.emergencies s' = EmergencyFund.emergencyEvents.
Proof.
  exact (proj1 (proj2 (proj2 emergency_schedule_and_rules))
           EmergencyFund.initialRace eq_refl eq_refl).
Defined.

(* ================================================================== *)
(** ** Compound-growth comparison *)

(** C8: at the common horizon of age 65 and the fixed 8% return, the
    contributor of 300 a month from 25 to 35 ends with a strictly larger
    balance than the contributor of 300 a month from 35 to 65 and than the
    contributor of 500 a month from 45 to 65, although she paid in the
    least (36000 against 108000 and 120000). *)
Theorem early_contributor_ranks_first :
  CompoundInterest.balance (CompoundInterest.steven 65)
  < CompoundInterest.balance (CompoundInterest.emma 65)
  /\ CompoundInterest.balance (CompoundInterest.larry 65)
     < CompoundInterest.balance (CompoundInterest.emma 65)
  /\ CompoundInterest.invested (CompoundInterest.emma 65) == 36000
  /\ CompoundInterest.invested (CompoundInterest.steven 65) == 108000
  /\ CompoundInterest.invested (CompoundInterest.larry 65) == 120000.
Proof.
  repeat split; vm_compute; reflexivity.
Qed.

(* ================================================================== *)
(** ** Paycheck strategies *)

(** C9: for every income and total of fixed expenses with a positive
    remainder, the allocation is a function of income, expenses and the
    chosen policy: spend-first spends 1.3 times the remainder (more than
    the remainder), saves 0, incurs 70 of late fees and marks the bills as
    not paid on time; bills-first and save-first pay the bills on time
    with no late fees and save 5% of the remainder and 10% of the income. *)
Theorem simulateStrategy_policies (income expenses : Q) :
  0 < income - expenses ->
  let spend := PaycheckGame.simulateStrategy income expenses
                 PaycheckGame.spend_first in
  let bills := PaycheckGame.simulateStrategy income expenses
                 PaycheckGame.bills_first in
  let save := PaycheckGame.simulateStrategy income expenses
                PaycheckGame.save_first in
  (PaycheckGame.discretionary_spent spend == (income - expenses) * 1.3
   /\ income - expenses < PaycheckGame.discretionary_spent spend
   /\ PaycheckGame.amount_saved spend == 0
   /\ PaycheckGame.late_fees spend == 70
   /\ PaycheckGame.bills_paid_on_time spend = false)
  /\ (PaycheckGame.bills_paid_on_time bills = true
      /\ PaycheckGame.late_fees bills == 0
      /\ PaycheckGame.amount_saved bills == (income - expenses) * 0.05)
  /\ (PaycheckGame.bills_paid_on_time save = true
      /\ PaycheckGame.late_fees save == 0
      /\ PaycheckGame.amount_saved save == income * 0.10).
Proof.
  intros Hrem spend bills save. subst spend bills save. simpl.
  repeat split; try reflexivity. lra.
Qed.

Lemma simulateStrategy_policies_witness :
  0 < 4000 - 2600
  /\ PaycheckGame.discretionary_spent
       (PaycheckGame.simulateStrategy 4000 2600 PaycheckGame.spend_first)
     == 1820
  /\ PaycheckGame.amount_saved
       (PaycheckGame.simulateStrategy 4000 2600 PaycheckGame.bills_first)
     == 70
  /\ PaycheckGame.amount_saved
       (PaycheckGame.simulateStrategy 4000 2600 PaycheckGame.save_first)
     == 400.
Proof.
  assert (Hrem : 0 < 4000 - 2600) by reflexivity.
  pose proof (simulateStrategy_policies 4000 2600 Hrem) as H.
  cbv zeta in H.
  destruct H as [[Hs _] [[_ [_ Hb]] [_ [_ Hv]]]].
  split; [exact Hrem|]. split; [|split].
  - rewrite Hs. reflexivity.
  - rewrite Hb. reflexivity.
  - rewrite Hv. reflexivity.
Defined.

(* ================================================================== *)
(** ** Minimum-payment preview *)

(** C10: the closed-form preview of [StepDebtSetup] is not total: whenever
    the minimum payment [max(25, 0.02 * balance)] is below the monthly
    interest [balance * (apr / 100 / 12)], the argument of the logarithm
    is negative, and the months to pay off, the total paid and the total
    interest are all NaN. *)
Theorem preview_is_nan (ln : Q -> Q) (balance apr : Q) :
  CreditCard.minimumPayment balance
  < balance * CreditCard.monthlyRate apr ->
  (exists q, CreditCard.payoffLogArgument balance apr = Fin q /\ q < 0)
  /\ CreditCard.monthsToPayoff ln balance apr = NaN
  /\ CreditCard.previewTotalPaid ln balance apr = NaN
  /\ CreditCard.previewTotalInterest ln balance apr = NaN.
Proof.
  intro Hlow.
  set (m := CreditCard.minimumPayment balance) in *.
  assert (Hm : 25 <= m) by apply Qmax'_ge_l.
  assert (Hden : m - balance * CreditCard.monthlyRate apr < 0) by lra.
  assert (Harg : CreditCard.payoffLogArgument balance apr
                 = Fin (m / (m - balance * CreditCard.monthlyRate apr))).
  { unfold CreditCard.payoffLogArgument. fold m. cbn [div].
    now rewrite (Qsign_neg _ Hden). }
  assert (Hneg : m / (m - balance * CreditCard.monthlyRate apr) < 0).
  { set (d := m - balance * CreditCard.monthlyRate apr) in *.
    assert (Hinv : 0 < / (- d)) by (apply Qinv_lt_0_compat; lra).
    assert (Heq : m / d == - (m * / (- d))) by (field; lra).
    rewrite Heq.
    assert (0 < m * / (- d)) by (apply Qmult_lt_0_compat; lra).
    lra. }
  assert (Hmonths : CreditCard.monthsToPayoff ln balance apr = NaN).
  { unfold CreditCard.monthsToPayoff. rewrite Harg. cbn [log].
    now rewrite (Qsign_neg _ Hneg). }
  split; [eexists; split; [exact Harg | exact Hneg]|].
  split; [exact Hmonths|].
  unfold CreditCard.previewTotalInterest, CreditCard.previewTotalPaid.
  rewrite Hmonths. split; reflexivity.
Qed.

Lemma preview_is_nan_witness :
  CreditCard.balance_offered 5000
  /\ CreditCard.apr_offered 30
  /\ CreditCard.minimumPayment 5000 <= 5000 * CreditCard.monthlyRate 30
  /\ CreditCard.payoffLogArgument 5000 30 =n= Fin (-4)
  /\ forall ln : Q -> Q,
       CreditCard.monthsToPayoff ln 5000 30 = NaN
       /\ CreditCard.previewTotalPaid ln 5000 30 = NaN
       /\ CreditCard.previewTotalInterest ln 5000 30 = NaN.
Proof.
  assert (Hlow : CreditCard.minimumPayment 5000
                 < 5000 * CreditCard.monthlyRate 30) by reflexivity.
  split; [split; discriminate|].
  split; [split; discriminate|].
  split; [discriminate|].
  split; [reflexivity|].
  intro ln. exact (proj2 (preview_is_nan ln 5000 30 Hlow)).
Defined.

(* ================================================================== *)
(** ** More on the credit-card page *)

Section PayoffInvariants.

Import CreditCard.

Variables balance rate payment : Q.

(** What the loop has charged: an answer other than [never_paid_off]
    reports the payments already made plus one full payment for every
    further month. *)
Lemma payoff_loop_charges (fuel : nat) :
  forall (remaining paid : Q) (m : nat) r,
    payoff_loop fuel balance rate payment remaining paid m = Some r ->
    r = never_paid_off
    \/ ((m <= months r)%nat
        /\ totalPaid r
           =n= Fin (paid + inject_Z (Z.of_nat (months r - m)) * payment)
        /\ totalInterest r
           =n= Fin (paid + inject_Z (Z.of_nat (months r - m)) * payment
                    - balance)).
Proof.
  induction fuel as [|fuel IH]; intros remaining paid m r H; [discriminate|].
  cbn [payoff_loop] in H.
  destruct (Qltb 0 remaining && (m <? 600)%nat).
  - destruct (Qle_bool _ 0).
    + left. now injection H as <-.
    + destruct (IH _ _ _ _ H) as [Hs | [Hm [Hp Hi]]]; [now left|].
      right. split; [lia|].
      replace (months r - m)%nat with (S (months r - S m)) by lia.
      rewrite Nat2Z.inj_succ. unfold Z.succ. rewrite inject_Z_plus.
      change (inject_Z 1) with 1.
      destruct (totalPaid r) as [tp| | |]; try contradiction.
      destruct (totalInterest r) as [ti| | |]; try contradiction.
      cbn [num_eq] in *. split; [rewrite Hp | rewrite Hi]; ring.
  - right. injection H as <-. cbn [months totalPaid totalInterest num_eq].
    rewrite Nat.sub_diag. split; [lia|]. split; ring.
Qed.

(** While the rate is not negative and the payment exceeds the interest on
    the whole balance, every month repays some principal: the loop does
    not answer [never_paid_off]. *)
Lemma payoff_loop_converges (fuel : nat) :
  0 <= rate -> balance * rate < payment ->
  forall (remaining paid : Q) (m : nat) r,
    remaining <= balance ->
    payoff_loop fuel balance rate payment remaining paid m = Some r ->
    r <> never_paid_off.
Proof.
  intros Hrate Hpay.
  induction fuel as [|fuel IH]; intros remaining paid m r Hrem H;
    [discriminate|].
  cbn [payoff_loop] in H.
  destruct (Qltb 0 remaining && (m <? 600)%nat) eqn:Hcond.
  - apply andb_true_iff in Hcond as [Hpos _]. apply Qltb_lt in Hpos.
    assert (Hint : remaining * rate <= balance * rate).
    { apply Qmult_le_compat_r; assumption. }
    assert (Hprin : 0 < Qmin' (payment - remaining * rate) remaining).
    { destruct (Qmin'_spec (payment - remaining * rate) remaining)
        as [[_ ->]|[_ ->]]; [clear - Hint Hpay; lra | exact Hpos]. }
    assert (Hgo : Qle_bool (Qmin' (payment - remaining * rate) remaining) 0
                  = false) by now apply Qle_bool_gt.
    rewrite Hgo in H. refine (IH _ _ _ _ _ H).
    clear - Hrem Hprin. lra.
  - injection H as <-. discriminate.
Qed.

(** While the rate is not negative, no month repays more principal than
    the payment: what has been repaid never exceeds what has been paid. *)
Lemma payoff_loop_interest_nonneg (fuel : nat) :
  0 <= rate ->
  forall (remaining paid : Q) (m : nat) r,
    balance - remaining <= paid ->
    payoff_loop fuel balance rate payment remaining paid m = Some r ->
    (months r < 600)%nat ->
    exists interest, totalInterest r = Fin interest /\ 0 <= interest.
Proof.
  intros Hrate.
  induction fuel as [|fuel IH]; intros remaining paid m r Hinv H Hcap;
    [discriminate|].
  cbn [payoff_loop] in H.
  destruct (Qltb 0 remaining) eqn:Hpos; cbn [andb] in H.
  - apply Qltb_lt in Hpos.
    destruct (m <? 600)%nat eqn:Hm.
    + destruct (Qle_bool _ 0).
      * injection H as <-. cbn in Hcap. lia.
      * refine (IH _ _ _ _ _ H Hcap).
        assert (Hi : 0 <= remaining * rate).
        { apply Qmult_le_0_compat; [clear - Hpos; lra | exact Hrate]. }
        pose proof (Qmin'_le_l (payment - remaining * rate) remaining) as Hl.
        clear - Hinv Hi Hl. lra.
    + injection H as <-. cbn in Hcap. apply Nat.ltb_ge in Hm. lia.
  - apply Qltb_ge in Hpos. injection H as <-. cbn [totalInterest].
    eexists. split; [reflexivity|]. clear - Hinv Hpos. lra.
Qed.

End PayoffInvariants.

Lemma calculatePayoff_unfold (balance apr monthlyPayment : Q) :
  CreditCard.calculatePayoff balance apr monthlyPayment
  = CreditCard.payoff_loop 601 balance (CreditCard.monthlyRate apr)
      monthlyPayment balance 0 0.
Proof. unfold CreditCard.calculatePayoff. reflexivity. Qed.

Lemma monthlyRate_nonneg_of_apr (apr : Q) :
  0 <= apr -> 0 <= CreditCard.monthlyRate apr.
Proof.
  intro H. unfold CreditCard.monthlyRate.
  assert (Hq : apr / 100 / 12 == apr * (1 # 1200)) by field. lra.
Qed.

Lemma calculatePayoff_converges (balance apr monthlyPayment : Q) :
  0 <= apr ->
  balance * CreditCard.monthlyRate apr < monthlyPayment ->
  exists r, CreditCard.calculatePayoff balance apr monthlyPayment = Some r
            /\ r <> CreditCard.never_paid_off.
Proof.
  intros Hapr Hpay.
  destruct (calculatePayoff_total balance apr monthlyPayment) as [r [Hr _]].
  exists r. split; [exact Hr|].
  rewrite calculatePayoff_unfold in Hr.
  exact (payoff_loop_converges balance (CreditCard.monthlyRate apr)
           monthlyPayment 601 (monthlyRate_nonneg_of_apr apr Hapr) Hpay
           balance 0 0%nat r (Qle_refl _) Hr).
Qed.

(** X1: every answer of [calculatePayoff] other than the fixed
    never-paid-off object reports [months] full payments: the total paid is
    [months * monthlyPayment] (the last payment is charged in full even
    when less is owed) and the total interest is that minus the balance. *)
Theorem calculatePayoff_charges_full_payments
    (balance apr monthlyPayment : Q) (r : CreditCard.PayoffResult) :
  CreditCard.calculatePayoff balance apr monthlyPayment = Some r ->
  r = CreditCard.never_paid_off
  \/ (CreditCard.totalPaid r
      =n= Fin (inject_Z (Z.of_nat (CreditCard.months r)) * monthlyPayment)
      /\ CreditCard.totalInterest r
         =n= Fin (inject_Z (Z.of_nat (CreditCard.months r)) * monthlyPayment
                  - balance)).
Proof.
  intro H. rewrite calculatePayoff_unfold in H.
  destruct (payoff_loop_charges balance (CreditCard.monthlyRate apr)
              monthlyPayment 601 balance 0 0%nat r H)
    as [Hs | [_ [Hp Hi]]]; [now left|right].
  clear H. rewrite Nat.sub_0_r in Hp, Hi.
  destruct (CreditCard.totalPaid r) as [tp| | |]; try contradiction.
  destruct (CreditCard.totalInterest r) as [ti| | |]; try contradiction.
  cbn [num_eq] in Hp, Hi |- *. split; [rewrite Hp | rewrite Hi]; ring.
Qed.

Lemma calculatePayoff_charges_full_payments_witness :
  CreditCard.calculatePayoff 300 24 200
  = Some {| CreditCard.months := 2;
            CreditCard.totalPaid := Fin (0 + 200 + 200);
            CreditCard.totalInterest := Fin (0 + 200 + 200 - 300) |}
  /\ Fin (0 + 200 + 200) =n= Fin (inject_Z (Z.of_nat 2) * 200).
Proof.
  assert (H : CreditCard.calculatePayoff 300 24 200
              = Some {| CreditCard.months := 2;
                        CreditCard.totalPaid := Fin (0 + 200 + 200);
                        CreditCard.totalInterest := Fin (0 + 200 + 200 - 300) |})
    by reflexivity.
  split; [exact H|].
  destruct (calculatePayoff_charges_full_payments 300 24 200 _ H)
    as [Hs | [Hp _]]; [discriminate Hs | exact Hp].
Defined.

(** *** The threshold on the inputs the page offers *)

Lemma is_never_paid_off_spec (r : CreditCard64.PayoffResult) :
  CreditCard64.is_never_paid_off r = true <-> r = CreditCard64.never_paid_off.
Proof.
  unfold CreditCard64.is_never_paid_off. split.
  - intro H. apply andb_true_iff in H as [H H3].
    apply andb_true_iff in H as [H1 H2].
    apply Nat.eqb_eq in H1. apply FloatAxioms.Leibniz.eqb_spec in H2, H3.
    destruct r as [m p i]. simpl in *. subst. reflexivity.
  - intros ->. reflexivity.
Qed.

(** Every balance and APR of the two sliders, with every payment of the
    four strategies, evaluated in binary64. *)
Lemma threshold_decides_offered :
  forallb (fun balance =>
    forallb (fun apr =>
      forallb (CreditCard64.threshold_decides balance apr)
        (CreditCard64.payments_offered balance))
      CreditCard64.aprs_offered)
    CreditCard64.balances_offered = true.
Proof. vm_compute. reflexivity. Qed.

Lemma forallb_grid {A B C : Type} (f : A -> B -> C -> bool)
    (l1 : list A) (l2 : list B) (l3 : A -> list C) :
  forallb (fun x => forallb (fun y => forallb (f x y) (l3 x)) l2) l1 = true ->
  forall x y z, In x l1 -> In y l2 -> In z (l3 x) -> f x y z = true.
Proof.
  intros H x y z Hx Hy Hz.
  rewrite forallb_forall in H. specialize (H _ Hx).
  rewrite forallb_forall in H. specialize (H _ Hy).
  rewrite forallb_forall in H. exact (H _ Hz).
Qed.

Lemma threshold_decides_spec (balance apr monthlyPayment : float) :
  CreditCard64.threshold_decides balance apr monthlyPayment = true ->
  (CreditCard64.calculatePayoff balance apr monthlyPayment
   = Some CreditCard64.never_paid_off
   <-> (monthlyPayment <=? balance * CreditCard64.monthlyRate apr)%float
       = true).
Proof.
  unfold CreditCard64.threshold_decides.
  destruct (CreditCard64.calculatePayoff balance apr monthlyPayment) as [r|];
    [|discriminate].
  intro H.
  apply Bool.eqb_prop in H. rewrite <- H, is_never_paid_off_spec.
  split; [now intros [= ->] | now intros ->].
Qed.

(** X2: for a positive balance and an APR that is not negative,
    [calculatePayoff] answers a payment below the interest of the first
    month with the never-paid-off object, and never answers a payment above
    it with that object (exact arithmetic, nothing said of a payment equal
    to the interest, where the rounding decides); and on every balance and
    APR the sliders offer, for each of the four strategy payments, the
    binary64 computation answers with that object exactly when the payment
    does not exceed the interest it computes. *)
Theorem calculatePayoff_never_paid_off_threshold :
  (forall balance apr monthlyPayment : Q,
      0 < balance -> 0 <= apr ->
      (monthlyPayment < balance * CreditCard.monthlyRate apr ->
       CreditCard.calculatePayoff balance apr monthlyPayment
       = Some CreditCard.never_paid_off)
      /\ (balance * CreditCard.monthlyRate apr < monthlyPayment ->
          CreditCard.calculatePayoff balance apr monthlyPayment
          <> Some CreditCard.never_paid_off))
  /\ (forall balance apr monthlyPayment : float,
         In balance CreditCard64.balances_offered ->
         In apr CreditCard64.aprs_offered ->
         In monthlyPayment (CreditCard64.payments_offered balance) ->
         (CreditCard64.calculatePayoff balance apr monthlyPayment
          = Some CreditCard64.never_paid_off
          <-> (monthlyPayment <=? balance * CreditCard64.monthlyRate apr)%float
              = true)).
Proof.
  split.
  - intros balance apr monthlyPayment Hb Hapr. split.
    + intro Hlt. apply calculatePayoff_interest_only; [exact Hb | lra].
    + intros Hgt Hs.
      destruct (calculatePayoff_converges balance apr monthlyPayment Hapr Hgt)
        as [r [Hr Hne]].
      rewrite Hs in Hr. injection Hr as Hr. apply Hne. now symmetry.
  - intros balance apr monthlyPayment Hb Ha Hp.
    apply threshold_decides_spec.
    exact (forallb_grid CreditCard64.threshold_decides _ _ _
             threshold_decides_offered balance apr monthlyPayment Hb Ha Hp).
Qed.

Lemma calculatePayoff_never_paid_off_threshold_witness :
  CreditCard.calculatePayoff 5000 30 100 = Some CreditCard.never_paid_off
  /\ CreditCard.calculatePayoff 5000 30 200 <> Some CreditCard.never_paid_off
  /\ CreditCard64.calculatePayoff 8000 15 100
     <> Some CreditCard64.never_paid_off
  /\ CreditCard64.calculatePayoff 8000 15.5 100
     = Some CreditCard64.never_paid_off.
Proof.
  assert (Hb : 0 < 5000) by reflexivity.
  assert (Hapr : 0 <= 30) by discriminate.
  assert (Hlt : 100 < 5000 * CreditCard.monthlyRate 30) by reflexivity.
  assert (Hgt : 5000 * CreditCard.monthlyRate 30 < 200) by reflexivity.
  assert (Ib : In 8000%float CreditCard64.balances_offered).
  { apply in_map_iff. exists 14%nat. split; [reflexivity | apply in_seq; lia]. }
  assert (Ia : In 15%float CreditCard64.aprs_offered).
  { apply in_map_iff. exists 0%nat. split; [reflexivity | apply in_seq; lia]. }
  assert (Ia' : In 15.5%float CreditCard64.aprs_offered).
  { apply in_map_iff. exists 1%nat. split; [reflexivity | apply in_seq; lia]. }
  assert (Ip : In 100%float (CreditCard64.payments_offered 8000)).
  { right. left. reflexivity. }
  split; [|split; [|split]].
  - exact (proj1 (proj1 calculatePayoff_never_paid_off_threshold
                    5000 30 100 Hb Hapr) Hlt).
  - exact (proj2 (proj1 calculatePayoff_never_paid_off_threshold
                    5000 30 200 Hb Hapr) Hgt).
  - intro Hs.
    apply (proj2 calculatePayoff_never_paid_off_threshold _ _ _ Ib Ia Ip) in Hs.
    discriminate Hs.
  - apply (proj2 calculatePayoff_never_paid_off_threshold _ _ _ Ib Ia' Ip).
    reflexivity.
Defined.

(** X3: when the APR is not negative, an answer of [calculatePayoff] with
    fewer than 600 months (the debt was cleared before the cap) has a
    finite total interest that is not negative. *)
Theorem calculatePayoff_interest_nonneg
    (balance apr monthlyPayment : Q) (r : CreditCard.PayoffResult) :
  0 <= apr ->
  CreditCard.calculatePayoff balance apr monthlyPayment = Some r ->
  (CreditCard.months r < 600)%nat ->
  exists interest, CreditCard.totalInterest r = Fin interest /\ 0 <= interest.
Proof.
  intros Hapr H Hcap.
  pose proof (monthlyRate_nonneg_of_apr apr Hapr) as Hrate.
  rewrite calculatePayoff_unfold in H.
  apply (payoff_loop_interest_nonneg balance (CreditCard.monthlyRate apr)
           monthlyPayment 601 Hrate balance 0 0%nat r); [lra | exact H | exact Hcap].
Qed.

Lemma calculatePayoff_interest_nonneg_witness :
  exists interest,
    option_map CreditCard.totalInterest (CreditCard.calculatePayoff 300 24 200)
    = Some (Fin interest) /\ 0 <= interest.
Proof.
  assert (Ha : 0 <= 24) by discriminate.
  assert (H : CreditCard.calculatePayoff 300 24 200
              = Some {| CreditCard.months := 2;
                        CreditCard.totalPaid := Fin (0 + 200 + 200);
                        CreditCard.totalInterest := Fin (0 + 200 + 200 - 300) |})
    by reflexivity.
  destruct (calculatePayoff_interest_nonneg 300 24 200 _ Ha H)
    as [i [Hi Hpos]]; [cbn; lia|].
  exists i. rewrite H. cbn [option_map]. split; [now rewrite Hi | exact Hpos].
Defined.
(** The minimum payment is 2% of a balance of 1250 or more. *)
Lemma minimum_strategy_payment (balance : Q) :
  1250 <= balance -> Qmax' 25 (balance * 0.02) = balance * 0.02.
Proof.
  intro H.
  destruct (Qmax'_spec 25 (balance * 0.02)) as [[_ E]|[Hlt _]];
    [exact E | lra].
Qed.

(** X4: for every balance and APR the sliders offer, the interest of the
    first month stays below 400, so the fourth strategy of the comparison
    (400 a month, the one the page divides the months of) is never answered
    with the never-paid-off object. *)
Theorem aggressive_strategy_converges (balance apr : Q) :
  CreditCard.balance_offered balance -> CreditCard.apr_offered apr ->
  exists s r,
    nth_error (CreditCard.results balance apr) 3 = Some (s, Some r)
    /\ CreditCard.name s = "Aggressive $400"%string
    /\ CreditCard.monthlyPayment s = 400
    /\ r <> CreditCard.never_paid_off.
Proof.
  intros [Hb1 Hb2] [Ha1 Ha2].
  assert (Hint : balance * CreditCard.monthlyRate apr < 400).
  { unfold CreditCard.monthlyRate.
    assert (Hq : balance * (apr / 100 / 12) == balance * apr * (1 # 1200))
      by field.
    rewrite Hq.
    assert (H1 : balance * apr <= 15000 * apr)
      by (apply Qmult_le_compat_r; lra).
    lra. }
  destruct (calculatePayoff_converges balance apr 400 ltac:(lra) Hint)
    as [r [Hr Hne]].
  eexists. exists r. unfold CreditCard.results, CreditCard.strategies.
  cbn [map nth_error CreditCard.monthlyPayment]. rewrite Hr.
  split; [reflexivity|]. split; [reflexivity|]. split; [reflexivity|exact Hne].
Qed.

Lemma aggressive_strategy_converges_witness :
  CreditCard.balance_offered 15000 /\ CreditCard.apr_offered 30
  /\ exists s r,
       nth_error (CreditCard.results 15000 30) 3 = Some (s, Some r)
       /\ CreditCard.name s = "Aggressive $400"%string
       /\ CreditCard.monthlyPayment s = 400
       /\ r <> CreditCard.never_paid_off.
Proof.
  assert (Hb : CreditCard.balance_offered 15000) by (split; discriminate).
  assert (Ha : CreditCard.apr_offered 30) by (split; discriminate).
  split; [exact Hb|]. split; [exact Ha|].
  exact (aggressive_strategy_converges 15000 30 Hb Ha).
Defined.

(** X5: for a balance of 1250 or more (where the minimum payment is 2% of
    the balance) and an APR that is not negative, the first strategy of
    the comparison, the minimum payment, is answered with the
    never-paid-off object, shown as 50+ years, exactly when the APR is 24
    or more. *)
Theorem minimum_strategy_never_paid_off_iff (balance apr : Q) :
  1250 <= balance -> 0 <= apr ->
  exists s answer,
    nth_error (CreditCard.results balance apr) 0 = Some (s, answer)
    /\ CreditCard.name s = "Minimum Only"%string
    /\ CreditCard.monthlyPayment s = balance * 0.02
    /\ (answer = Some CreditCard.never_paid_off <-> 24 <= apr)
    /\ CreditCard.showsFiftyPlusYears CreditCard.never_paid_off = true.
Proof.
  intros Hb Hapr.
  unfold CreditCard.results, CreditCard.strategies.
  cbn [map nth_error CreditCard.monthlyPayment].
  rewrite (minimum_strategy_payment balance Hb).
  eexists. eexists. split; [reflexivity|].
  cbn [CreditCard.name CreditCard.monthlyPayment].
  split; [reflexivity|]. split; [reflexivity|]. split; [|reflexivity].
  assert (Hthr : balance * 0.02 <= balance * CreditCard.monthlyRate apr
                 <-> 24 <= apr).
  { rewrite Qmult_le_l by lra. unfold CreditCard.monthlyRate.
    assert (Hq : apr / 100 / 12 == apr * (1 # 1200)) by field.
    rewrite Hq. split; intro H; lra. }
  rewrite <- Hthr. split.
  - intro H.
    destruct (Qlt_le_dec (balance * CreditCard.monthlyRate apr)
                (balance * 0.02)) as [Hgt | Hle]; [|exact Hle].
    exfalso.
    destruct (calculatePayoff_converges balance apr (balance * 0.02) Hapr Hgt)
      as [r [Hr Hne]].
    rewrite H in Hr. injection Hr as <-. now apply Hne.
  - apply calculatePayoff_interest_only. lra.
Qed.

Lemma minimum_strategy_never_paid_off_iff_witness :
  1250 <= 5000 /\ 0 <= 24
  /\ option_map snd (nth_error (CreditCard.results 5000 24) 0)
     = Some (Some CreditCard.never_paid_off).
Proof.
  assert (Hb : 1250 <= 5000) by discriminate.
  assert (Ha : 0 <= 24) by discriminate.
  split; [exact Hb|]. split; [exact Ha|].
  destruct (minimum_strategy_never_paid_off_iff 5000 24 Hb Ha)
    as [s [answer [Hn [_ [_ [Hiff _]]]]]].
  rewrite Hn. cbn [option_map snd]. f_equal.
  apply Hiff. apply Qle_refl.
Defined.
(* ================================================================== *)
(** ** More on the coffee-shop page *)

Lemma Qfloor_ge (z : Z) (x : Q) : (z <= Qfloor x)%Z <-> inject_Z z <= x.
Proof.
  split.
  - intro H. apply Qle_trans with (inject_Z (Qfloor x)).
    + now rewrite <- Zle_Qle.
    + apply Qfloor_le.
  - intro H. rewrite <- (Qfloor_Z z). now apply Qfloor_resp_le.
Qed.

Lemma Qround_half_up_ge (z : Z) (x : Q) :
  (z <= Qround_half_up x)%Z <-> inject_Z z - (1 # 2) <= x.
Proof.
  unfold Qround_half_up. rewrite Qfloor_ge. split; intro H; lra.
Qed.

Lemma Qmax'_mono_r (x y y' : Q) : y <= y' -> Qmax' x y <= Qmax' x y'.
Proof.
  intro H.
  destruct (Qmax'_spec x y) as [[H1 ->]|[H1 ->]];
    destruct (Qmax'_spec x y') as [[H2 ->]|[H2 ->]]; lra.
Qed.

(** The accuracy as a function of the distance of the guess. *)
Lemma accuracyPercent_distance (userGuess : Q) :
  CoffeeShop.accuracyPercent userGuess
  == Qmax' 0 (100 - Qabs (1430 - userGuess) * (10 # 143)).
Proof.
  unfold CoffeeShop.accuracyPercent.
  apply Qmax'_compat; [reflexivity|].
  assert (Hc : CoffeeShop.actualCost == 1430) by reflexivity.
  rewrite Hc. field.
Qed.

(** X6: the completion is posted as a perfect score exactly when the guess
    is within 78.65 of the actual annual cost of 1430, that is between
    1351.35 and 1508.65. *)
Theorem isPerfect_iff (userGuess : Q) :
  CoffeeShop.isPerfect userGuess = true
  <-> 1351.35 <= userGuess <= 1508.65.
Proof.
  unfold CoffeeShop.isPerfect, CoffeeShop.score.
  rewrite Z.leb_le, Qround_half_up_ge, accuracyPercent_distance.
  change (inject_Z 95) with 95.
  set (d := Qabs (1430 - userGuess)).
  assert (Hd : d <= 78.65 <-> 1351.35 <= userGuess <= 1508.65).
  { unfold d. rewrite Qabs_Qle_condition. split; intros [H1 H2]; split; lra. }
  rewrite <- Hd.
  destruct (Qmax'_spec 0 (100 - d * (10 # 143))) as [[H ->]|[H ->]];
    split; intro H'; lra.
Qed.

(** X7: a guess that is at least as close to the actual cost never scores
    lower; in particular guesses at the same distance above and below 1430
    score the same. *)
Theorem score_monotone_in_distance (g1 g2 : Q) :
  Qabs (1430 - g1) <= Qabs (1430 - g2) ->
  (CoffeeShop.score g2 <= CoffeeShop.score g1)%Z.
Proof.
  intro H. unfold CoffeeShop.score. unfold Qround_half_up.
  apply Qfloor_resp_le.
  rewrite !accuracyPercent_distance.
  apply Qplus_le_l. apply Qmax'_mono_r. lra.
Qed.

Lemma score_monotone_in_distance_witness :
  Qabs (1430 - 1400) <= Qabs (1430 - 500)
  /\ (CoffeeShop.score 500 <= CoffeeShop.score 1400)%Z.
Proof.
  assert (H : Qabs (1430 - 1400) <= Qabs (1430 - 500))
    by (vm_compute; discriminate).
  split; [exact H|]. exact (score_monotone_in_distance 1400 500 H).
Defined.

(** The payments of a series add up to at most its future value when
    neither the payment nor the rate is negative, and to less from the
    second period on when both are positive. *)
Lemma spec_future_value_ge_paid (pmt rate : Q) (periods : nat) :
  0 <= pmt -> 0 <= rate ->
  pmt * inject_Z (Z.of_nat periods)
  <= CoffeeShop.spec_future_value_of_series pmt rate periods.
Proof.
  intros Hp Hr. induction periods as [|n IH].
  - cbn [CoffeeShop.spec_future_value_of_series].
    change (inject_Z (Z.of_nat 0)) with 0. lra.
  - cbn [CoffeeShop.spec_future_value_of_series].
    rewrite Nat2Z.inj_succ. unfold Z.succ. rewrite inject_Z_plus.
    change (inject_Z 1) with 1.
    set (s := CoffeeShop.spec_future_value_of_series pmt rate n) in *.
    set (k := inject_Z (Z.of_nat n)) in *.
    assert (Hk : 0 <= pmt * k).
    { apply Qmult_le_0_compat; [exact Hp|].
      unfold k. change 0 with (inject_Z 0). rewrite <- Zle_Qle. lia. }
    assert (Hs : 0 <= s * rate) by (apply Qmult_le_0_compat; lra).
    lra.
Qed.

Lemma spec_future_value_gt_paid (pmt rate : Q) (periods : nat) :
  0 < pmt -> 0 < rate -> (2 <= periods)%nat ->
  pmt * inject_Z (Z.of_nat periods)
  < CoffeeShop.spec_future_value_of_series pmt rate periods.
Proof.
  intros Hp Hr Hn.
  destruct periods as [|[|n]]; [lia|lia|].
  change (CoffeeShop.spec_future_value_of_series pmt rate (S (S n)))
    with (CoffeeShop.spec_future_value_of_series pmt rate (S n) * (1 + rate)
          + pmt).
  pose proof (spec_future_value_ge_paid pmt rate (S n)
                (Qlt_le_weak _ _ Hp) (Qlt_le_weak _ _ Hr)) as Hge.
  rewrite (Nat2Z.inj_succ (S n)). unfold Z.succ. rewrite inject_Z_plus.
  change (inject_Z 1) with 1.
  set (s := CoffeeShop.spec_future_value_of_series pmt rate (S n)) in *.
  set (k := inject_Z (Z.of_nat (S n))) in *.
  assert (Hk : 1 <= k).
  { unfold k. change 1 with (inject_Z 1). rewrite <- Zle_Qle. lia. }
  assert (Hpk : pmt <= pmt * k).
  { assert (H0 : 0 <= pmt * (k - 1)) by (apply Qmult_le_0_compat; lra).
    lra. }
  assert (Hs : 0 < s * rate) by (apply Qmult_lt_0_compat; lra).
  lra.
Qed.

(** X8: in the comparison of [StepCompound] the invested amount is a finite
    number that is never below the amount spent: the difference shown is 0
    for a horizon of 0 or 1 year and positive from 2 years on. *)
Theorem difference_nonneg (years : nat) :
  exists d,
    CoffeeShop.difference years =n= Fin d
    /\ 0 <= d
    /\ ((years <= 1)%nat -> d == 0)
    /\ ((2 <= years)%nat -> 0 < d).
Proof.
  unfold CoffeeShop.difference, CoffeeShop.ifInvested.
  pose proof (calculateFutureValue_nonzero_rate CoffeeShop.annualCost 0.08
                years ltac:(discriminate)) as Hfv.
  fold (CoffeeShop.investedAt years) in Hfv.
  destruct (CoffeeShop.investedAt years) as [v| | |]; try contradiction.
  cbn [num_eq] in Hfv. cbn [sub add opp].
  exists (v + - CoffeeShop.totalSpent years).
  split; [reflexivity|].
  assert (Hc : 0 < CoffeeShop.annualCost) by reflexivity.
  unfold CoffeeShop.totalSpent. rewrite Hfv. split; [|split].
  - pose proof (spec_future_value_ge_paid CoffeeShop.annualCost 0.08 years
                  (Qlt_le_weak _ _ Hc) ltac:(discriminate)). lra.
  - intro Hy. destruct years as [|[|n]]; [reflexivity|reflexivity|lia].
  - intro Hy.
    pose proof (spec_future_value_gt_paid CoffeeShop.annualCost 0.08 years
                  Hc ltac:(reflexivity) Hy). lra.
Qed.

(** What can be afforded, by name. *)
Lemma affordable_names (selectedYears : Q) (n : string) :
  In n (map CoffeeShop.name (CoffeeShop.affordablePurchases selectedYears))
  <-> (n = "iPhone 15 Pro"%string /\ 1199 <= 1430 * selectedYears)
      \/ (n = "Vacation to Hawaii"%string /\ 3500 <= 1430 * selectedYears)
      \/ (n = "MacBook Air"%string /\ 1299 <= 1430 * selectedYears)
      \/ (n = "Used Car Down Payment"%string /\ 5000 <= 1430 * selectedYears)
      \/ n = "Emergency Fund"%string.
Proof.
  unfold CoffeeShop.affordablePurchases, CoffeeShop.purchases.
  unfold CoffeeShop.totalSavings.
  set (t := 1430 * selectedYears).
  cbn [filter CoffeeShop.cost].
  assert (Ht : Qle_bool t t = true) by (apply Qle_bool_iff; apply Qle_refl).
  rewrite Ht.
  destruct (Qle_bool 1199 t) eqn:E1;
    destruct (Qle_bool 3500 t) eqn:E2;
    destruct (Qle_bool 1299 t) eqn:E3;
    destruct (Qle_bool 5000 t) eqn:E4;
    cbn [map In CoffeeShop.name];
    repeat match goal with
           | H : Qle_bool _ _ = true |- _ => apply Qle_bool_iff in H
           | H : Qle_bool _ _ = false |- _ => apply Qle_bool_gt in H
           end;
    split;
    intro H;
    repeat match goal with
           | H : _ \/ _ |- _ => destruct H
           | H : _ /\ _ |- _ => destruct H
           | H : False |- _ => destruct H
           end;
    subst;
    try (exfalso; lra);
    tauto.
Qed.

(** X9: the list of affordable purchases is never empty (the emergency
    fund, priced at the savings themselves, is always on it) and only
    grows with the years: what is affordable after fewer years stays
    affordable after more. *)
Theorem affordablePurchases_grow (y1 y2 : Q) :
  y1 <= y2 ->
  In "Emergency Fund"%string
     (map CoffeeShop.name (CoffeeShop.affordablePurchases y1))
  /\ forall n,
       In n (map CoffeeShop.name (CoffeeShop.affordablePurchases y1)) ->
       In n (map CoffeeShop.name (CoffeeShop.affordablePurchases y2)).
Proof.
  intro Hy. split.
  - apply affordable_names. tauto.
  - intros n H. apply affordable_names in H. apply affordable_names.
    destruct H as [[-> H]|[[-> H]|[[-> H]|[[-> H]|Hn]]]]; [| | | |subst n].
    + left. split; [reflexivity|lra].
    + right; left. split; [reflexivity|lra].
    + right; right; left. split; [reflexivity|lra].
    + right; right; right; left. split; [reflexivity|lra].
    + tauto.
Qed.

Lemma affordablePurchases_grow_witness :
  1 <= 5
  /\ map CoffeeShop.name (CoffeeShop.affordablePurchases 1)
     = ["iPhone 15 Pro"; "MacBook Air"; "Emergency Fund"]%string
  /\ In "MacBook Air"%string
        (map CoffeeShop.name (CoffeeShop.affordablePurchases 5)).
Proof.
  assert (H : 1 <= 5) by discriminate.
  split; [exact H|]. split; [reflexivity|].
  apply (proj2 (affordablePurchases_grow 1 5 H)).
  right; left. reflexivity.
Defined.
(* ================================================================== *)
(** ** More on the compound-interest page *)

Section Annuity.

Import CoffeeShop.

(** The annuity formula of the page, for a number of months that is not
    negative, is the series of the monthly payments. *)
Lemma annuity_as_series (monthlyAmount rate : Q) (months : Z) :
  ~ rate == 0 -> (0 <= months)%Z ->
  monthlyAmount * (((1 + rate) ^ months - 1) / rate)
  == spec_future_value_of_series monthlyAmount rate (Z.to_nat months).
Proof.
  intros Hr Hm.
  rewrite <- (closed_form_future_value monthlyAmount rate (Z.to_nat months) Hr).
  rewrite Z2Nat.id by exact Hm. reflexivity.
Qed.

Lemma spec_future_value_nonneg (pmt rate : Q) (periods : nat) :
  0 <= pmt -> 0 <= rate ->
  0 <= spec_future_value_of_series pmt rate periods.
Proof.
  intros Hp Hr.
  pose proof (spec_future_value_ge_paid pmt rate periods Hp Hr) as H.
  assert (Hk : 0 <= pmt * inject_Z (Z.of_nat periods)).
  { apply Qmult_le_0_compat; [exact Hp|].
    change 0 with (inject_Z 0). rewrite <- Zle_Qle. lia. }
  lra.
Qed.

(** With a positive payment the series grows with every period. *)
Lemma spec_future_value_increasing (pmt rate : Q) (n m : nat) :
  0 < pmt -> 0 <= rate -> (n < m)%nat ->
  spec_future_value_of_series pmt rate n
  < spec_future_value_of_series pmt rate m.
Proof.
  intros Hp Hr Hnm. induction Hnm as [|m Hle IH].
  - cbn [spec_future_value_of_series].
    pose proof (spec_future_value_nonneg pmt rate n (Qlt_le_weak _ _ Hp) Hr)
      as Hs.
    assert (0 <= spec_future_value_of_series pmt rate n * rate)
      by (apply Qmult_le_0_compat; assumption).
    lra.
  - cbn [spec_future_value_of_series].
    pose proof (spec_future_value_nonneg pmt rate m (Qlt_le_weak _ _ Hp) Hr)
      as Hs.
    assert (0 <= spec_future_value_of_series pmt rate m * rate)
      by (apply Qmult_le_0_compat; assumption).
    lra.
Qed.

End Annuity.

Lemma monthlyRate_nonzero : ~ CompoundInterest.returnRate / 12 == 0.
Proof. discriminate. Qed.

Lemma monthlyRate_nonneg : 0 <= CompoundInterest.returnRate / 12.
Proof. discriminate. Qed.

Lemma growth_ge_1 (years : Z) :
  (0 <= years)%Z -> 1 <= (1 + CompoundInterest.returnRate) ^ years.
Proof.
  intro H. apply Qpower_1_le; [discriminate | exact H].
Qed.

(** X10: for a start age that is not after the end age, the amount
    [calculateValue] reports as invested is the monthly amount for every
    month from the start age to the current age, capped at the end age:
    nothing before the start, nothing more after the end. *)
Theorem calculateValue_invested (startAge endAge : Z) (monthlyAmount : Q)
    (currentAge : Z) :
  (startAge <= endAge)%Z ->
  CompoundInterest.invested
    (CompoundInterest.calculateValue startAge endAge monthlyAmount currentAge)
  == monthlyAmount
     * inject_Z (12 * Z.max 0 (Z.min endAge currentAge - startAge)).
Proof.
  intro Hse. unfold CompoundInterest.calculateValue.
  destruct ((currentAge <? startAge)%Z || (endAge <? currentAge)%Z) eqn:Hout.
  - destruct (Z.max 0 (Z.min endAge currentAge - startAge) =? 0)%Z eqn:Hz.
    + apply Z.eqb_eq in Hz. rewrite Hz.
      cbn [CompoundInterest.invested]. change (inject_Z (12 * 0)) with 0. ring.
    + cbn [CompoundInterest.invested]. rewrite Z.mul_comm. reflexivity.
  - apply orb_false_iff in Hout as [H1 H2].
    apply Z.ltb_ge in H1, H2. cbn [CompoundInterest.invested].
    replace (12 * Z.max 0 (Z.min endAge currentAge - startAge))%Z
      with ((currentAge - startAge) * 12)%Z by lia.
    reflexivity.
Qed.

Lemma calculateValue_invested_witness :
  (25 <= 35)%Z
  /\ CompoundInterest.invested (CompoundInterest.calculateValue 25 35 300 65)
     == 36000.
Proof.
  assert (H : (25 <= 35)%Z) by lia.
  split; [exact H|].
  rewrite (calculateValue_invested 25 35 300 65 H). reflexivity.
Defined.

(** X11: for a monthly amount that is not negative and a start age that is
    not after the end age, the balance [calculateValue] reports is never
    below the amount it reports as invested. *)
Theorem calculateValue_balance_ge_invested (startAge endAge : Z)
    (monthlyAmount : Q) (currentAge : Z) :
  (startAge <= endAge)%Z -> 0 <= monthlyAmount ->
  CompoundInterest.invested
    (CompoundInterest.calculateValue startAge endAge monthlyAmount currentAge)
  <= CompoundInterest.balance
       (CompoundInterest.calculateValue startAge endAge monthlyAmount
          currentAge).
Proof.
  intros Hse Ha. unfold CompoundInterest.calculateValue.
  destruct ((currentAge <? startAge)%Z || (endAge <? currentAge)%Z) eqn:Hout.
  - set (years := Z.max 0 (Z.min endAge currentAge - startAge)).
    assert (Hy : (0 <= years)%Z) by (unfold years; lia).
    destruct (years =? 0)%Z eqn:Hz.
    + cbn [CompoundInterest.invested CompoundInterest.balance]. lra.
    + cbn [CompoundInterest.invested CompoundInterest.balance].
      pose proof (spec_future_value_ge_paid monthlyAmount
                    (CompoundInterest.returnRate / 12)
                    (Z.to_nat (years * 12)) Ha monthlyRate_nonneg) as Hge.
      rewrite Z2Nat.id in Hge by lia.
      destruct (0 <? currentAge - endAge)%Z eqn:Hg;
        rewrite (annuity_as_series monthlyAmount _ (years * 12)
                   monthlyRate_nonzero ltac:(lia)); [|exact Hge].
      apply Z.ltb_lt in Hg.
      pose proof (growth_ge_1 (currentAge - endAge) ltac:(lia)) as H1.
      set (s := CoffeeShop.spec_future_value_of_series _ _ _) in *.
      set (g := (1 + CompoundInterest.returnRate) ^ (currentAge - endAge)) in *.
      assert (Hpaid : 0 <= monthlyAmount * inject_Z (years * 12)).
      { apply Qmult_le_0_compat; [exact Ha|].
        change 0 with (inject_Z 0). rewrite <- Zle_Qle. lia. }
      assert (Hsg : 0 <= s * (g - 1)) by (apply Qmult_le_0_compat; lra).
      clear - Hge Hsg. lra.
  - apply orb_false_iff in Hout as [H1 H2].
    apply Z.ltb_ge in H1, H2.
    cbn [CompoundInterest.invested CompoundInterest.balance].
    rewrite (annuity_as_series monthlyAmount _ ((currentAge - startAge) * 12)
               monthlyRate_nonzero ltac:(lia)).
    pose proof (spec_future_value_ge_paid monthlyAmount
                  (CompoundInterest.returnRate / 12)
                  (Z.to_nat ((currentAge - startAge) * 12)) Ha
                  monthlyRate_nonneg) as Hge.
    rewrite Z2Nat.id in Hge by lia. exact Hge.
Qed.

Lemma calculateValue_balance_ge_invested_witness :
  (35 <= 65)%Z /\ 0 <= 300
  /\ CompoundInterest.invested (CompoundInterest.steven 50)
     <= CompoundInterest.balance (CompoundInterest.steven 50).
Proof.
  assert (H : (35 <= 65)%Z) by lia.
  assert (Ha : 0 <= 300) by discriminate.
  split; [exact H|]. split; [exact Ha|].
  exact (calculateValue_balance_ge_invested 35 65 300 50 H Ha).
Defined.
(** The two shapes the annuity of the calculator takes. *)
Lemma annuity_zero_months (monthlyAmount rate : Q) :
  monthlyAmount * (((1 + rate) ^ 0 - 1) / rate) == 0.
Proof.
  change ((1 + rate) ^ 0) with 1.
  assert (H : (1 - 1) / rate == 0) by (unfold Qdiv; ring).
  rewrite H. ring.
Qed.

(** X12: for a number of contribution years that is not negative and ends
    by 65, the final value of the personal calculator is the balance
    [calculateValue] gives at 65 to a contributor from [age] to
    [age + yearsInvesting]: the two steps agree. *)
Theorem finalValue_agrees_with_calculateValue (age : Z) (monthlyAmount : Q)
    (yearsInvesting : Z) :
  (0 <= yearsInvesting)%Z -> (age + yearsInvesting <= 65)%Z ->
  CompoundInterest.finalValue age monthlyAmount yearsInvesting
  == CompoundInterest.balance
       (CompoundInterest.calculateValue age (age + yearsInvesting)
          monthlyAmount 65).
Proof.
  intros Hy Hend.
  unfold CompoundInterest.finalValue, CompoundInterest.calculateValue.
  cbv zeta.
  destruct ((65 <? age)%Z || (age + yearsInvesting <? 65)%Z) eqn:Hout.
  - apply orb_true_iff in Hout as [H|H]; apply Z.ltb_lt in H; [lia|].
    replace (Z.max 0 (Z.min (age + yearsInvesting) 65 - age))
      with yearsInvesting by lia.
    assert (Hgrow : (0 <? 65 - (age + yearsInvesting))%Z = true)
      by (apply Z.ltb_lt; lia).
    rewrite Hgrow.
    destruct (yearsInvesting =? 0)%Z eqn:Hz.
    + apply Z.eqb_eq in Hz. subst yearsInvesting.
      cbn [CompoundInterest.balance]. change (0 * 12)%Z with 0%Z.
      rewrite annuity_zero_months. ring.
    + cbn [CompoundInterest.balance]. reflexivity.
  - apply orb_false_iff in Hout as [H1 H2]. apply Z.ltb_ge in H1, H2.
    assert (Hgrow : (0 <? 65 - (age + yearsInvesting))%Z = false)
      by (apply Z.ltb_ge; lia).
    rewrite Hgrow. cbn [CompoundInterest.balance].
    replace ((65 - age) * 12)%Z with (yearsInvesting * 12)%Z by lia.
    reflexivity.
Qed.

Lemma finalValue_agrees_with_calculateValue_witness :
  (0 <= 10)%Z /\ (25 + 10 <= 65)%Z
  /\ CompoundInterest.finalValue 25 300 10
     == CompoundInterest.balance (CompoundInterest.emma 65).
Proof.
  assert (Hy : (0 <= 10)%Z) by lia.
  assert (He : (25 + 10 <= 65)%Z) by lia.
  split; [exact Hy|]. split; [exact He|].
  exact (finalValue_agrees_with_calculateValue 25 300 10 Hy He).
Defined.

Section Chart.

Import CompoundCalculator.

Lemma chartData_length (age : Z) (monthlyAmount : Q) (yearsInvesting : Z) :
  List.length (chartData age monthlyAmount yearsInvesting)
  = Z.to_nat (65 - age + 1).
Proof.
  unfold chartData. now rewrite length_map, length_seq.
Qed.

Lemma chartData_nth (age : Z) (monthlyAmount : Q) (yearsInvesting i : Z) :
  (0 <= i <= 65 - age)%Z ->
  nth_error (chartData age monthlyAmount yearsInvesting) (Z.to_nat i)
  = Some (chartPoint age monthlyAmount yearsInvesting i).
Proof.
  intro Hi. unfold chartData.
  rewrite nth_error_map, nth_error_seq.
  assert (Hlt : (Z.to_nat i <? Z.to_nat (65 - age + 1))%nat = true)
    by (apply Nat.ltb_lt; lia).
  rewrite Hlt. cbn [option_map Nat.add]. now rewrite Z2Nat.id by lia.
Qed.

(** The balance of a chart point whose contribution years are all of the
    index (no growth years yet). *)
Lemma chartPoint_contributing (age : Z) (monthlyAmount : Q)
    (yearsInvesting i : Z) :
  (0 <= i <= yearsInvesting)%Z ->
  balance (chartPoint age monthlyAmount yearsInvesting i)
  == CoffeeShop.spec_future_value_of_series monthlyAmount
       (CompoundInterest.returnRate / 12) (Z.to_nat (i * 12)).
Proof.
  intro Hi. unfold chartPoint. cbv zeta. cbn [balance].
  replace (Z.min i yearsInvesting) with i by lia.
  replace (Z.max 0 (i - yearsInvesting)) with 0%Z by lia.
  change (0 <? 0)%Z with false.
  destruct (0 <? i * 12)%Z eqn:Hm.
  - apply annuity_as_series; [exact monthlyRate_nonzero | lia].
  - apply Z.ltb_ge in Hm. replace (i * 12)%Z with 0%Z by lia. reflexivity.
Qed.

End Chart.

(** X13: for an age of at most 65 the chart of the personal calculator has
    one point for every year up to 65, and when the contribution years are
    not negative and end by 65 its last point, at age 65, shows the final
    value and the total invested that the cards show. *)
Theorem chartData_ends_at_finalValue (age : Z) (monthlyAmount : Q)
    (yearsInvesting : Z) :
  (0 <= yearsInvesting)%Z -> (age + yearsInvesting <= 65)%Z ->
  List.length (CompoundCalculator.chartData age monthlyAmount yearsInvesting)
  = Z.to_nat (66 - age)
  /\ exists p,
       nth_error (CompoundCalculator.chartData age monthlyAmount yearsInvesting)
         (Z.to_nat (65 - age)) = Some p
       /\ CompoundCalculator.age p = 65%Z
       /\ CompoundCalculator.balance p
          == CompoundInterest.finalValue age monthlyAmount yearsInvesting
       /\ CompoundCalculator.invested p
          == CompoundCalculator.totalInvested monthlyAmount yearsInvesting.
Proof.
  intros Hy Hend. split.
  - rewrite chartData_length. f_equal. lia.
  - eexists. split; [apply chartData_nth; lia|].
    unfold CompoundCalculator.chartPoint, CompoundInterest.finalValue,
      CompoundCalculator.totalInvested.
    cbv zeta.
    cbn [CompoundCalculator.age CompoundCalculator.balance
         CompoundCalculator.invested].
    replace (Z.min (65 - age) yearsInvesting) with yearsInvesting by lia.
    replace (Z.max 0 (65 - age - yearsInvesting))
      with (65 - (age + yearsInvesting))%Z by lia.
    split; [lia|]. split; [|reflexivity].
    destruct (0 <? yearsInvesting * 12)%Z eqn:Hm; [reflexivity|].
    apply Z.ltb_ge in Hm.
    replace yearsInvesting with 0%Z by lia. change (0 * 12)%Z with 0%Z.
    destruct (0 <? 65 - (age + 0))%Z; rewrite annuity_zero_months; ring.
Qed.

Lemma chartData_ends_at_finalValue_witness :
  (0 <= 10)%Z /\ (25 + 10 <= 65)%Z
  /\ List.length (CompoundCalculator.chartData 25 300 10) = 41%nat.
Proof.
  assert (Hy : (0 <= 10)%Z) by lia.
  assert (He : (25 + 10 <= 65)%Z) by lia.
  split; [exact Hy|]. split; [exact He|].
  exact (proj1 (chartData_ends_at_finalValue 25 300 10 Hy He)).
Defined.

(** X14: the slider of the contribution years is clamped at 65 only for
    display; when the stored years run past 65 ([yearsInvesting > 65 -
    age]) and the monthly amount is positive, the final value the cards
    show counts contributions after 65 and is strictly above the last
    point of the chart. *)
Theorem finalValue_overshoots_chart (age : Z) (monthlyAmount : Q)
    (yearsInvesting : Z) :
  (age <= 65)%Z -> (65 - age < yearsInvesting)%Z -> 0 < monthlyAmount ->
  exists p,
    nth_error (CompoundCalculator.chartData age monthlyAmount yearsInvesting)
      (Z.to_nat (65 - age)) = Some p
    /\ CompoundCalculator.balance p
       < CompoundInterest.finalValue age monthlyAmount yearsInvesting.
Proof.
  intros Hage Hover Ha.
  eexists. split; [apply chartData_nth; lia|].
  rewrite chartPoint_contributing by lia.
  unfold CompoundInterest.finalValue. cbv zeta.
  assert (Hgrow : (0 <? 65 - (age + yearsInvesting))%Z = false)
    by (apply Z.ltb_ge; lia).
  rewrite Hgrow.
  rewrite (annuity_as_series monthlyAmount _ (yearsInvesting * 12)
             monthlyRate_nonzero ltac:(lia)).
  apply spec_future_value_increasing;
    [exact Ha | exact monthlyRate_nonneg | lia].
Qed.

Lemma finalValue_overshoots_chart_witness :
  (60 <= 65)%Z /\ (65 - 60 < 40)%Z /\ 0 < 300
  /\ exists p,
       nth_error (CompoundCalculator.chartData 60 300 40) 5%nat = Some p
       /\ CompoundCalculator.balance p
          < CompoundInterest.finalValue 60 300 40.
Proof.
  assert (H1 : (60 <= 65)%Z) by lia.
  assert (H2 : (65 - 60 < 40)%Z) by lia.
  assert (H3 : 0 < 300) by reflexivity.
  split; [exact H1|]. split; [exact H2|]. split; [exact H3|].
  exact (finalValue_overshoots_chart 60 300 40 H1 H2 H3).
Defined.
(* ================================================================== *)
(** ** More on the budget-builder page *)

Section BudgetMore.

Import BudgetBuilder.

(** A percentage of a non-zero income is a finite number. *)
Lemma allocatedPercent_finite (total income : Q) :
  ~ income == 0 ->
  allocatedPercent total income = Fin (total / income * 100).
Proof.
  intro Hi. unfold allocatedPercent. cbn [div].
  assert (Hs : Qsign income <> Eq).
  { unfold Qsign. intro H. apply Qeq_alt in H. apply Hi. now symmetry. }
  destruct (Qsign income); [congruence| |]; reflexivity.
Qed.

(** Percentages depend on the total only up to equality of rationals. *)
Lemma allocatedPercent_compat (total total' income : Q) :
  total == total' ->
  allocatedPercent total income =n= allocatedPercent total' income.
Proof.
  intro H. unfold allocatedPercent. cbn [div].
  assert (Hs : Qsign total = Qsign total').
  { unfold Qsign. now rewrite H. }
  rewrite Hs.
  destruct (Qsign income); [destruct (Qsign total'); reflexivity| |];
    cbn [mul num_eq]; now rewrite H.
Qed.

Lemma overallScore_on_target (income : Q) (budget : list BudgetItem) :
  percent needs income budget =n= Fin 50 ->
  percent wants income budget =n= Fin 30 ->
  percent savings income budget =n= Fin 20 ->
  overallScore income budget =n= Fin 100.
Proof.
  intros Hn Hw Hs.
  destruct (spec_bucket_on_target _ 50 2 Hn) as [_ Sn].
  destruct (spec_bucket_on_target _ 30 3 Hw) as [_ Sw].
  destruct (spec_bucket_on_target _ 20 4 Hs) as [_ Ss].
  unfold overallScore, needsScore, wantsScore, savingsScore.
  unfold spec_bucket_score, spec_deviation in Sn, Sw, Ss.
  destruct (max (Fin 0) (Fin 100 - abs (percent needs income budget - Fin 50)
                                   * Fin 2)) as [a| | |]; try contradiction.
  destruct (max (Fin 0) (Fin 100 - abs (percent wants income budget - Fin 30)
                                   * Fin 3)) as [b| | |]; try contradiction.
  destruct (max (Fin 0) (Fin 100 - abs (percent savings income budget - Fin 20)
                                   * Fin 4)) as [c| | |]; try contradiction.
  cbn [num_eq] in Sn, Sw, Ss.
  cbn [add div round num_eq]. rewrite (Qsign_pos 3) by reflexivity.
  cbn [round num_eq].
  assert (Havg : (a + b + c) / 3 == 100)
    by (rewrite Sn, Sw, Ss; reflexivity).
  rewrite (Qround_half_up_spec ((a + b + c) / 3) 100).
  - reflexivity.
  - rewrite Havg. discriminate.
  - rewrite Havg. reflexivity.
Qed.

End BudgetMore.

(** X15: the budget handed from the allocation step to the review step
    carries the same three totals: filtering the list by bucket and summing
    gives the sums of the sliders, so both steps show the same
    percentages. *)
Theorem handleSubmit_totals (income : Q) (a : BudgetBuilder.Allocation) :
  (BudgetBuilder.total BudgetBuilder.needs (BudgetBuilder.handleSubmit a)
   == BudgetBuilder.totalNeeds a
   /\ BudgetBuilder.total BudgetBuilder.wants (BudgetBuilder.handleSubmit a)
      == BudgetBuilder.totalWants a
   /\ BudgetBuilder.total BudgetBuilder.savings (BudgetBuilder.handleSubmit a)
      == BudgetBuilder.totalSavings a)
  /\ BudgetBuilder.percent BudgetBuilder.needs income
       (BudgetBuilder.handleSubmit a)
     =n= BudgetBuilder.allocatedPercent (BudgetBuilder.totalNeeds a) income
  /\ BudgetBuilder.percent BudgetBuilder.wants income
       (BudgetBuilder.handleSubmit a)
     =n= BudgetBuilder.allocatedPercent (BudgetBuilder.totalWants a) income
  /\ BudgetBuilder.percent BudgetBuilder.savings income
       (BudgetBuilder.handleSubmit a)
     =n= BudgetBuilder.allocatedPercent (BudgetBuilder.totalSavings a) income.
Proof.
  assert (Hn : BudgetBuilder.total BudgetBuilder.needs
                 (BudgetBuilder.handleSubmit a)
               == BudgetBuilder.totalNeeds a).
  { unfold BudgetBuilder.total, BudgetBuilder.totalNeeds. simpl. ring. }
  assert (Hw : BudgetBuilder.total BudgetBuilder.wants
                 (BudgetBuilder.handleSubmit a)
               == BudgetBuilder.totalWants a).
  { unfold BudgetBuilder.total, BudgetBuilder.totalWants. simpl. ring. }
  assert (Hs : BudgetBuilder.total BudgetBuilder.savings
                 (BudgetBuilder.handleSubmit a)
               == BudgetBuilder.totalSavings a).
  { unfold BudgetBuilder.total, BudgetBuilder.totalSavings. simpl. ring. }
  split; [now repeat split|].
  split; [|split]; now apply allocatedPercent_compat.
Qed.

(** X16: for every positive income, the allocation the sliders start with
    is balanced, has all three buckets in their good range, is handed on
    as the default budget, and scores 100. *)
Theorem initialAllocation_scores_100 (income : Q) :
  0 < income ->
  BudgetBuilder.isBalanced income (BudgetBuilder.initialAllocation income)
  = true
  /\ BudgetBuilder.needsGood income (BudgetBuilder.initialAllocation income)
     = true
  /\ BudgetBuilder.wantsGood income (BudgetBuilder.initialAllocation income)
     = true
  /\ BudgetBuilder.savingsGood income (BudgetBuilder.initialAllocation income)
     = true
  /\ BudgetBuilder.handleSubmit (BudgetBuilder.initialAllocation income)
     = BudgetBuilder.defaultBudget income
  /\ BudgetBuilder.overallScore income (BudgetBuilder.defaultBudget income)
     =n= Fin 100.
Proof.
  intro Hi.
  assert (Hnz : ~ income == 0) by lra.
  assert (Hn : BudgetBuilder.totalNeeds (BudgetBuilder.initialAllocation income)
               / income * 100 == 50).
  { unfold BudgetBuilder.totalNeeds, BudgetBuilder.initialAllocation.
    cbn. field. exact Hnz. }
  assert (Hw : BudgetBuilder.totalWants (BudgetBuilder.initialAllocation income)
               / income * 100 == 30).
  { unfold BudgetBuilder.totalWants, BudgetBuilder.initialAllocation.
    cbn. field. exact Hnz. }
  assert (Hs : BudgetBuilder.totalSavings
                 (BudgetBuilder.initialAllocation income)
               / income * 100 == 20).
  { unfold BudgetBuilder.totalSavings, BudgetBuilder.initialAllocation.
    cbn. field. exact Hnz. }
  split; [|split; [|split; [|split; [|split]]]].
  - unfold BudgetBuilder.isBalanced. apply Qltb_lt.
    assert (Hz : BudgetBuilder.totalAllocated
                   (BudgetBuilder.initialAllocation income) - income == 0).
    { unfold BudgetBuilder.totalAllocated, BudgetBuilder.totalNeeds,
        BudgetBuilder.totalWants, BudgetBuilder.totalSavings,
        BudgetBuilder.initialAllocation. cbn. ring. }
    rewrite Hz. reflexivity.
  - unfold BudgetBuilder.needsGood.
    rewrite (allocatedPercent_finite _ income Hnz). cbn [num_leb].
    apply andb_true_iff. split; apply Qle_bool_iff; rewrite Hn; discriminate.
  - unfold BudgetBuilder.wantsGood.
    rewrite (allocatedPercent_finite _ income Hnz). cbn [num_leb].
    apply andb_true_iff. split; apply Qle_bool_iff; rewrite Hw; discriminate.
  - unfold BudgetBuilder.savingsGood.
    rewrite (allocatedPercent_finite _ income Hnz). cbn [num_leb].
    apply andb_true_iff. split; apply Qle_bool_iff; rewrite Hs; discriminate.
  - reflexivity.
  - apply overallScore_on_target.
    + change (BudgetBuilder.percent BudgetBuilder.needs income
                (BudgetBuilder.defaultBudget income))
        with (BudgetBuilder.allocatedPercent
                (BudgetBuilder.total BudgetBuilder.needs
                   (BudgetBuilder.defaultBudget income)) income).
      rewrite (allocatedPercent_finite _ income Hnz). cbn [num_eq].
      rewrite <- Hn. unfold BudgetBuilder.total, BudgetBuilder.totalNeeds.
      cbn. field. exact Hnz.
    + change (BudgetBuilder.percent BudgetBuilder.wants income
                (BudgetBuilder.defaultBudget income))
        with (BudgetBuilder.allocatedPercent
                (BudgetBuilder.total BudgetBuilder.wants
                   (BudgetBuilder.defaultBudget income)) income).
      rewrite (allocatedPercent_finite _ income Hnz). cbn [num_eq].
      rewrite <- Hw. unfold BudgetBuilder.total, BudgetBuilder.totalWants.
      cbn. field. exact Hnz.
    + change (BudgetBuilder.percent BudgetBuilder.savings income
                (BudgetBuilder.defaultBudget income))
        with (BudgetBuilder.allocatedPercent
                (BudgetBuilder.total BudgetBuilder.savings
                   (BudgetBuilder.defaultBudget income)) income).
      rewrite (allocatedPercent_finite _ income Hnz). cbn [num_eq].
      rewrite <- Hs. unfold BudgetBuilder.total, BudgetBuilder.totalSavings.
      cbn. field. exact Hnz.
Qed.

Lemma initialAllocation_scores_100_witness :
  0 < 2000
  /\ BudgetBuilder.overallScore 2000 (BudgetBuilder.defaultBudget 2000)
     =n= Fin 100.
Proof.
  assert (H : 0 < 2000) by reflexivity.
  split; [exact H|].
  exact (proj2 (proj2 (proj2 (proj2 (proj2
           (initialAllocation_scores_100 2000 H)))))).
Defined.

(** X17: for every non-zero income and every budget the overall score is a
    whole number between 0 and 100. *)
Theorem overallScore_bounds (income : Q)
    (budget : list BudgetBuilder.BudgetItem) :
  ~ income == 0 ->
  exists z : Z,
    BudgetBuilder.overallScore income budget = Fin (inject_Z z)
    /\ (0 <= z <= 100)%Z.
Proof.
  intro Hnz.
  unfold BudgetBuilder.overallScore, BudgetBuilder.needsScore,
    BudgetBuilder.wantsScore, BudgetBuilder.savingsScore.
  change (BudgetBuilder.percent ?t income budget)
    with (BudgetBuilder.allocatedPercent (BudgetBuilder.total t budget) income).
  rewrite !(allocatedPercent_finite _ income Hnz).
  destruct (spec_bucket_bounds
              (BudgetBuilder.total BudgetBuilder.needs budget / income * 100)
              50 2 ltac:(discriminate)) as [a [Ea Ha]].
  destruct (spec_bucket_bounds
              (BudgetBuilder.total BudgetBuilder.wants budget / income * 100)
              30 3 ltac:(discriminate)) as [b [Eb Hb]].
  destruct (spec_bucket_bounds
              (BudgetBuilder.total BudgetBuilder.savings budget / income * 100)
              20 4 ltac:(discriminate)) as [c [Ec Hc]].
  unfold BudgetBuilder.spec_bucket_score, BudgetBuilder.spec_deviation
    in Ea, Eb, Ec.
  rewrite Ea, Eb, Ec.
  cbn [add div round]. rewrite (Qsign_pos 3) by reflexivity.
  eexists. split; [reflexivity|].
  assert (Havg : 0 <= (a + b + c) / 3 <= 100).
  { assert (Hq : (a + b + c) / 3 == (a + b + c) * (1 # 3)) by field. lra. }
  split.
  - change 0%Z with (Qround_half_up 0). apply Qround_half_up_mono. lra.
  - change 100%Z with (Qround_half_up 100). apply Qround_half_up_mono. lra.
Qed.

Lemma overallScore_bounds_witness :
  ~ 4000 == 0
  /\ exists z : Z,
       BudgetBuilder.overallScore 4000
         [ {| BudgetBuilder.category := "Housing";
              BudgetBuilder.amount := 4000;
              BudgetBuilder.type := BudgetBuilder.needs |} ]
       = Fin (inject_Z z)
       /\ (0 <= z <= 100)%Z.
Proof.
  assert (H : ~ 4000 == 0) by discriminate.
  split; [exact H|].
  exact (overallScore_bounds 4000 _ H).
Defined.
(* ================================================================== *)
(** ** More on the paycheck-game page *)

(** X18: whatever the policy, the discretionary spending, the late fees
    and the final balance of a result add up to what the fixed expenses
    leave of the income. *)
Theorem simulateStrategy_accounts (income expenses : Q)
    (strat : PaycheckGame.Strategy) :
  PaycheckGame.discretionary_spent
    (PaycheckGame.simulateStrategy income expenses strat)
  + PaycheckGame.late_fees
      (PaycheckGame.simulateStrategy income expenses strat)
  + PaycheckGame.final_balance
      (PaycheckGame.simulateStrategy income expenses strat)
  == income - expenses.
Proof.
  destruct strat; cbn; ring.
Qed.

(** X19: when the fixed expenses are not negative and do not exceed the
    income, spend-first saves no more than bills-first, which saves no more
    than save-first; the final balance of bills-first and of save-first is
    the amount saved, and the final balance of spend-first is negative. *)
Theorem simulateStrategy_ranking (income expenses : Q) :
  0 <= expenses -> expenses <= income ->
  PaycheckGame.amount_saved
    (PaycheckGame.simulateStrategy income expenses PaycheckGame.spend_first)
  <= PaycheckGame.amount_saved
       (PaycheckGame.simulateStrategy income expenses PaycheckGame.bills_first)
  /\ PaycheckGame.amount_saved
       (PaycheckGame.simulateStrategy income expenses PaycheckGame.bills_first)
     <= PaycheckGame.amount_saved
          (PaycheckGame.simulateStrategy income expenses
             PaycheckGame.save_first)
  /\ PaycheckGame.final_balance
       (PaycheckGame.simulateStrategy income expenses PaycheckGame.bills_first)
     == PaycheckGame.amount_saved
          (PaycheckGame.simulateStrategy income expenses
             PaycheckGame.bills_first)
  /\ PaycheckGame.final_balance
       (PaycheckGame.simulateStrategy income expenses PaycheckGame.save_first)
     == PaycheckGame.amount_saved
          (PaycheckGame.simulateStrategy income expenses
             PaycheckGame.save_first)
  /\ PaycheckGame.final_balance
       (PaycheckGame.simulateStrategy income expenses PaycheckGame.spend_first)
     < 0.
Proof.
  intros He Hi. cbn. repeat split; try ring; lra.
Qed.

Lemma simulateStrategy_ranking_witness :
  0 <= 2600 /\ 2600 <= 4000
  /\ PaycheckGame.final_balance
       (PaycheckGame.simulateStrategy 4000 2600 PaycheckGame.spend_first)
     < 0.
Proof.
  assert (He : 0 <= 2600) by discriminate.
  assert (Hi : 2600 <= 4000) by discriminate.
  split; [exact He|]. split; [exact Hi|].
  exact (proj2 (proj2 (proj2 (proj2
           (simulateStrategy_ranking 4000 2600 He Hi))))).
Defined.

(** X20: the gate of the setup step only asks for a positive remainder, so
    save-first can be reached with a remainder below 10% of the income; its
    discretionary spending is then zero or negative, and the pie chart of
    the result has a discretionary slice exactly when the remainder
    exceeds 10% of the income. *)
Theorem save_first_discretionary_slice (income expenses : Q) :
  (In "Discretionary"%string
      (map fst (PaycheckGame.breakdownData income expenses
                  PaycheckGame.save_first))
   <-> income * 0.10 < income - expenses)
  /\ (PaycheckGame.discretionary_spent
        (PaycheckGame.simulateStrategy income expenses PaycheckGame.save_first)
      < 0
      <-> income - expenses < income * 0.10).
Proof.
  split.
  - unfold PaycheckGame.breakdownData. cbv zeta.
    cbn [PaycheckGame.simulateStrategy PaycheckGame.discretionary_spent
         PaycheckGame.amount_saved PaycheckGame.late_fees filter snd].
    change (Qltb 0 0) with false.
    destruct (Qltb 0 expenses);
      destruct (Qltb 0 (income - expenses - income * 0.10)) eqn:Hd;
      destruct (Qltb 0 (income * 0.10));
      cbn [map fst In];
      (apply Qltb_lt in Hd || apply Qltb_ge in Hd);
      split; intro H;
      repeat match goal with
             | H : _ \/ _ |- _ => destruct H
             | H : False |- _ => destruct H
             end;
      try discriminate; try lra; tauto.
  - cbn. split; intro H; lra.
Qed.

(** The sum of the slices of a pie chart. *)
Lemma breakdown_all_positive (a b c d : Q) (na nb nc nd : string) :
  0 < a -> 0 < b -> 0 < c -> d <= 0 ->
  filter (fun item : string * Q => Qltb 0 (snd item))
    [(na, a); (nb, b); (nc, c); (nd, d)]
  = [(na, a); (nb, b); (nc, c)].
Proof.
  intros Ha Hb Hc Hd. cbn [filter snd].
  apply Qltb_lt in Ha, Hb, Hc. apply Qltb_ge in Hd.
  now rewrite Ha, Hb, Hc, Hd.
Qed.

(** X21: with positive fixed expenses and a positive remainder, the slices
    of the pie chart add up to the income for bills-first, and for
    save-first when the remainder exceeds 10% of the income; for
    spend-first they add up to more than the income, by 30% of the
    remainder plus the late fees of 70. *)
Theorem breakdownData_totals (income expenses : Q) :
  0 < expenses -> 0 < income - expenses ->
  fold_right Qplus 0
    (map snd (PaycheckGame.breakdownData income expenses
                PaycheckGame.bills_first))
  == income
  /\ fold_right Qplus 0
       (map snd (PaycheckGame.breakdownData income expenses
                   PaycheckGame.spend_first))
     == income + (income - expenses) * 0.3 + 70
  /\ (income * 0.10 < income - expenses ->
      fold_right Qplus 0
        (map snd (PaycheckGame.breakdownData income expenses
                    PaycheckGame.save_first))
      == income).
Proof.
  intros He Hr. unfold PaycheckGame.breakdownData. cbv zeta.
  cbn [PaycheckGame.simulateStrategy PaycheckGame.discretionary_spent
       PaycheckGame.amount_saved PaycheckGame.late_fees].
  split; [|split].
  - rewrite breakdown_all_positive by lra. cbn [map snd fold_right]. ring.
  - cbn [filter snd].
    assert (H1 : Qltb 0 expenses = true) by now apply Qltb_lt.
    assert (H2 : Qltb 0 ((income - expenses) * 1.3) = true)
      by (apply Qltb_lt; lra).
    rewrite H1, H2. change (Qltb 0 0) with false. change (Qltb 0 70) with true.
    cbn [map snd fold_right]. ring.
  - intro Hs. rewrite breakdown_all_positive by lra.
    cbn [map snd fold_right]. ring.
Qed.

Lemma breakdownData_totals_witness :
  0 < 2600 /\ 0 < 4000 - 2600
  /\ fold_right Qplus 0
       (map snd (PaycheckGame.breakdownData 4000 2600
                   PaycheckGame.spend_first))
     == 4000 + (4000 - 2600) * 0.3 + 70.
Proof.
  assert (He : 0 < 2600) by reflexivity.
  assert (Hr : 0 < 4000 - 2600) by reflexivity.
  split; [exact He|]. split; [exact Hr|].
  exact (proj1 (proj2 (breakdownData_totals 4000 2600 He Hr))).
Defined.

(* ================================================================== *)
(** ** More on the emergency-fund page *)

Section RaceInvariants.

Import EmergencyFund.

Lemma emergencyOf_cost_pos (m : nat) (e : Emergency) :
  emergencyOf m = Some e -> 0 < cost e.
Proof.
  intro H. apply emergencyOf_month in H as [Hin _].
  repeat (destruct Hin as [<-|Hin]; [reflexivity|]). destruct Hin.
Qed.

Lemma sarahEmergency_sound (e : Emergency) (c : Character) :
  0 < cost e -> sound c -> sound (sarahEmergency e c).
Proof.
  intros Hc [Hf [Hd [Hs1 Hs2]]]. unfold sarahEmergency, sound.
  destruct (Qle_bool (cost e) (emergencyFund c)) eqn:Hpay;
    cbn [emergencyFund debt stress].
  - apply Qle_bool_iff in Hpay.
    destruct (Qmin'_spec (stress c + 1) 10) as [[H ->]|[H ->]];
      repeat split; lra.
  - apply Qle_bool_gt in Hpay.
    destruct (Qmin'_spec (stress c + 3) 10) as [[H ->]|[H ->]];
      repeat split; lra.
Qed.

Lemma mikeEmergency_sound (e : Emergency) (c : Character) :
  0 < cost e -> sound c -> sound (mikeEmergency e c).
Proof.
  intros Hc [Hf [Hd [Hs1 Hs2]]]. unfold mikeEmergency, sound.
  cbn [emergencyFund debt stress].
  destruct (Qmin'_spec (stress c + 3) 10) as [[H ->]|[H ->]];
    repeat split; lra.
Qed.

Lemma sarahNormal_sound (c : Character) : sound c -> sound (sarahNormal c).
Proof.
  intros [Hf [Hd [Hs1 Hs2]]]. unfold sarahNormal, sound.
  cbn [emergencyFund debt stress].
  pose proof (Qmax'_ge_l 0 (debt c - debt c * 0.05)).
  destruct (Qmax'_spec 1 (stress c - 0.5)) as [[H1 ->]|[H1 ->]];
    repeat split; lra.
Qed.

Lemma mikeNormal_sound (c : Character) : sound c -> sound (mikeNormal c).
Proof.
  intros [Hf [Hd [Hs1 Hs2]]]. unfold mikeNormal, sound.
  cbn [emergencyFund debt stress].
  destruct (Qltb 0 (debt c)) eqn:Hpos.
  - destruct (Qmin'_spec (stress c + 0.5) 10) as [[H ->]|[H ->]];
      repeat split; lra.
  - repeat split; lra.
Qed.

Lemma step_sound (s s' : Race) :
  step s = Some s' ->
  sound (sarah s) -> sound (mike s) ->
  sound (sarah s') /\ sound (mike s').
Proof.
  unfold step. destruct (12 <=? currentMonth s)%nat; [discriminate|].
  destruct (emergencyOf (currentMonth s)) as [e|] eqn:He;
    intros H Hs Hm; injection H as <-; cbn [sarah mike].
  - pose proof (emergencyOf_cost_pos _ _ He) as Hc.
    split; [now apply sarahEmergency_sound | now apply mikeEmergency_sound].
  - split; [now apply sarahNormal_sound | now apply mikeNormal_sound].
Qed.

End RaceInvariants.

(** X22: the race keeps both characters in a state the page can draw: from
    characters whose fund and debt are not negative and whose stress is
    between 1 and 10 (as the initial ones are), every state the race ends
    in has the same properties. *)
Theorem run_keeps_characters_sound (fuel : nat) (s s' : EmergencyFund.Race) :
  EmergencyFund.run fuel s = Some s' ->
  EmergencyFund.sound (EmergencyFund.sarah s) ->
  EmergencyFund.sound (EmergencyFund.mike s) ->
  EmergencyFund.sound (EmergencyFund.sarah s')
  /\ EmergencyFund.sound (EmergencyFund.mike s').
Proof.
  revert s. induction fuel as [|fuel IH]; intros s H Hs Hm;
    cbn [EmergencyFund.run] in H;
    destruct (EmergencyFund.step s) as [s1|] eqn:Hstep.
  - discriminate.
  - injection H as <-. now split.
  - destruct (step_sound s s1 Hstep Hs Hm) as [Hs1 Hm1].
    now apply (IH s1).
  - injection H as <-. now split.
Qed.

Lemma run_keeps_characters_sound_witness :
  exists s',
    EmergencyFund.run 12 EmergencyFund.initialRace = Some s'
    /\ EmergencyFund.sound (EmergencyFund.sarah s')
    /\ EmergencyFund.sound (EmergencyFund.mike s').
Proof.
  destruct (run_records_schedule EmergencyFund.initialRace eq_refl eq_refl)
    as [s' [Hrun _]].
  exists s'. split; [exact Hrun|].
  apply (run_keeps_characters_sound 12 EmergencyFund.initialRace s' Hrun).
  - unfold EmergencyFund.sound. cbn. repeat split; discriminate.
  - unfold EmergencyFund.sound. cbn. repeat split; discriminate.
Defined.

(** X23: an emergency month lowers the net worth of both characters by
    exactly the cost, whether or not the fund covers it; a normal month
    raises the lead of the character with the fund by at least 400; so
    while no debt is negative the gap between the two net worths never
    shrinks. *)
Theorem step_net_worth (s s' : EmergencyFund.Race) :
  EmergencyFund.step s = Some s' ->
  0 <= EmergencyFund.debt (EmergencyFund.sarah s) ->
  0 <= EmergencyFund.debt (EmergencyFund.mike s) ->
  (forall e,
      EmergencyFund.emergencyOf (EmergencyFund.currentMonth s) = Some e ->
      EmergencyFund.netWorth (EmergencyFund.sarah s')
      == EmergencyFund.netWorth (EmergencyFund.sarah s) - EmergencyFund.cost e
      /\ EmergencyFund.netWorth (EmergencyFund.mike s')
         == EmergencyFund.netWorth (EmergencyFund.mike s)
            - EmergencyFund.cost e)
  /\ (EmergencyFund.emergencyOf (EmergencyFund.currentMonth s) = None ->
      EmergencyFund.netWorth (EmergencyFund.sarah s)
      - EmergencyFund.netWorth (EmergencyFund.mike s) + 400
      <= EmergencyFund.netWorth (EmergencyFund.sarah s')
         - EmergencyFund.netWorth (EmergencyFund.mike s'))
  /\ EmergencyFund.netWorth (EmergencyFund.sarah s)
     - EmergencyFund.netWorth (EmergencyFund.mike s)
     <= EmergencyFund.netWorth (EmergencyFund.sarah s')
        - EmergencyFund.netWorth (EmergencyFund.mike s').
Proof.
  unfold EmergencyFund.step.
  destruct (12 <=? EmergencyFund.currentMonth s)%nat; [discriminate|].
  destruct (EmergencyFund.emergencyOf (EmergencyFund.currentMonth s))
    as [e|] eqn:He; intros H Hds Hdm; injection H as <-;
    cbn [EmergencyFund.sarah EmergencyFund.mike].
  - assert (Hs : EmergencyFund.netWorth
                   (EmergencyFund.sarahEmergency e (EmergencyFund.sarah s))
                 == EmergencyFund.netWorth (EmergencyFund.sarah s)
                    - EmergencyFund.cost e).
    { unfold EmergencyFund.netWorth, EmergencyFund.sarahEmergency.
      destruct (Qle_bool _ _);
        cbn [EmergencyFund.emergencyFund EmergencyFund.debt]; ring. }
    assert (Hm : EmergencyFund.netWorth
                   (EmergencyFund.mikeEmergency e (EmergencyFund.mike s))
                 == EmergencyFund.netWorth (EmergencyFund.mike s)
                    - EmergencyFund.cost e).
    { unfold EmergencyFund.netWorth, EmergencyFund.mikeEmergency.
      cbn [EmergencyFund.emergencyFund EmergencyFund.debt]. ring. }
    split; [|split].
    + intros e' He'. injection He' as <-. now split.
    + discriminate.
    + rewrite Hs, Hm. lra.
  - assert (Hgap :
      EmergencyFund.netWorth (EmergencyFund.sarah s)
      - EmergencyFund.netWorth (EmergencyFund.mike s) + 400
      <= EmergencyFund.netWorth
           (EmergencyFund.sarahNormal (EmergencyFund.sarah s))
         - EmergencyFund.netWorth
             (EmergencyFund.mikeNormal (EmergencyFund.mike s))).
    { unfold EmergencyFund.netWorth, EmergencyFund.sarahNormal,
        EmergencyFund.mikeNormal.
      cbn [EmergencyFund.emergencyFund EmergencyFund.debt].
      set (ds := EmergencyFund.debt (EmergencyFund.sarah s)) in *.
      set (dm := EmergencyFund.debt (EmergencyFund.mike s)) in *.
      assert (Hsd : Qmax' 0 (ds - ds * 0.05) <= ds).
      { destruct (Qmax'_spec 0 (ds - ds * 0.05)) as [[_ ->]|[_ ->]]; lra. }
      destruct (Qltb 0 dm) eqn:Hpos.
      - apply Qltb_lt in Hpos. clear - Hsd Hpos. lra.
      - clear - Hsd. lra. }
    split; [|split].
    + discriminate.
    + intros _. exact Hgap.
    + lra.
Qed.

Lemma step_net_worth_witness :
  exists s',
    EmergencyFund.step EmergencyFund.initialRace = Some s'
    /\ EmergencyFund.netWorth (EmergencyFund.sarah EmergencyFund.initialRace)
       - EmergencyFund.netWorth (EmergencyFund.mike EmergencyFund.initialRace)
       <= EmergencyFund.netWorth (EmergencyFund.sarah s')
          - EmergencyFund.netWorth (EmergencyFund.mike s').
Proof.
  eexists. split; [reflexivity|].
  refine (proj2 (proj2 (step_net_worth EmergencyFund.initialRace _ eq_refl
                          _ _))); cbn; discriminate.
Defined.

Section Timeline.

Import EmergencyFund.

Lemma timeline_debt_fold (month : nat) (emergencies : list Emergency) :
  forall l : Ledger,
    (forall e, In e emergencies -> (EmergencyFund.month e <= month)%nat) ->
    mikeDebt (fold_left (applyEmergency month) emergencies l)
    == mikeDebt l + totalCost emergencies.
Proof.
  induction emergencies as [|e es IH]; intros l Hall.
  - cbn. ring.
  - cbn [fold_left totalCost fold_right].
    rewrite IH by (intros e' He'; apply Hall; now right).
    fold (totalCost es).
    assert (Hm : (EmergencyFund.month e <=? month)%nat = true)
      by (apply Nat.leb_le; apply Hall; now left).
    unfold applyEmergency. rewrite Hm.
    destruct (Qle_bool (cost e) (sarahFund l)); cbn [mikeDebt]; ring.
Qed.

Lemma timeline_interest_fold (month : nat) (emergencies : list Emergency) :
  forall d : Q,
    (forall e, In e emergencies -> (EmergencyFund.month e < month)%nat) ->
    fold_left (applyInterest month) emergencies d
    == d * 1.018 ^ Z.of_nat (totalMonthsOfInterest month emergencies).
Proof.
  induction emergencies as [|e es IH]; intros d Hall.
  - cbn. ring.
  - cbn [fold_left totalMonthsOfInterest fold_right].
    rewrite IH by (intros e' He'; apply Hall; now right).
    fold (totalMonthsOfInterest month es).
    assert (Hm : (EmergencyFund.month e <? month)%nat = true)
      by (apply Nat.ltb_lt; apply Hall; now left).
    unfold applyInterest. rewrite Hm. cbv zeta.
    rewrite Nat2Z.inj_add, Qpower_plus by discriminate. ring.
Qed.

End Timeline.

(** X24: at a month after all the emergencies, the timeline charts the
    character without a fund at minus the sum of all costs times 1.018 to
    the power of the months since each emergency added up: the interest
    period of every emergency is applied to the whole debt, later
    emergencies included. *)
Theorem timeline_mike_closed_form (emergencies : list EmergencyFund.Emergency)
    (month : nat) :
  (forall e, In e emergencies -> (EmergencyFund.month e < month)%nat) ->
  EmergencyFund.timelineMike (EmergencyFund.timelinePoint emergencies month)
  == - (EmergencyFund.totalCost emergencies
        * 1.018 ^ Z.of_nat
                    (EmergencyFund.totalMonthsOfInterest month emergencies)).
Proof.
  intro Hall. unfold EmergencyFund.timelinePoint. cbv zeta.
  cbn [EmergencyFund.timelineMike].
  rewrite timeline_interest_fold by exact Hall.
  rewrite timeline_debt_fold
    by (intros e He; apply Nat.lt_le_incl; now apply Hall).
  cbn [EmergencyFund.mikeDebt]. ring.
Qed.

Lemma timeline_mike_closed_form_witness :
  EmergencyFund.timelineMike
    (EmergencyFund.timelinePoint EmergencyFund.emergencyEvents 12)
  == - (3500 * 1.018 ^ 22)
  /\ exists s',
       EmergencyFund.run 12 EmergencyFund.initialRace = Some s'
       /\ EmergencyFund.timelineSarah
            (EmergencyFund.timelinePoint (EmergencyFund.emergencies s') 12)
          == EmergencyFund.netWorth (EmergencyFund.sarah s')
       /\ EmergencyFund.timelineMike
            (EmergencyFund.timelinePoint (EmergencyFund.emergencies s') 12)
          < EmergencyFund.netWorth (EmergencyFund.mike s') - 1400.
Proof.
  split.
  - rewrite (timeline_mike_closed_form EmergencyFund.emergencyEvents 12).
    + reflexivity.
    + intros e He.
      repeat (destruct He as [<-|He]; [cbn; lia|]). destruct He.
  - eexists. split; [vm_compute; reflexivity|].
    split; vm_compute; reflexivity.
Defined.
(* ================================================================== *)
(** ** More on the progress page *)

Section LevelCard.

Import Progress.

(** The row a level number finds. *)
Lemma find_level (k : Z) :
  find (fun l => (level l =? k)%Z) levels
  = if (1 =? k)%Z then nth_error levels 0
    else if (2 =? k)%Z then nth_error levels 1
    else if (3 =? k)%Z then nth_error levels 2
    else if (4 =? k)%Z then nth_error levels 3
    else if (5 =? k)%Z then nth_error levels 4
    else if (6 =? k)%Z then nth_error levels 5
    else None.
Proof. reflexivity. Qed.

Lemma find_level_cases (k : Z) :
  (1 <= k <= 6)%Z ->
  k = 1%Z \/ k = 2%Z \/ k = 3%Z \/ k = 4%Z \/ k = 5%Z \/ k = 6%Z.
Proof. lia. Qed.

Lemma find_level_none (k : Z) :
  ~ (1 <= k <= 6)%Z -> find (fun l => (level l =? k)%Z) levels = None.
Proof.
  intro H. rewrite find_level.
  repeat match goal with
         | |- context [(?a =? k)%Z] =>
             destruct (Z.eqb_spec a k); [lia|]
         end.
  reflexivity.
Qed.

Lemma find_level_some (k : Z) :
  (1 <= k <= 6)%Z ->
  exists l, find (fun l => (level l =? k)%Z) levels = Some l
            /\ In l levels /\ level l = k.
Proof.
  intro H.
  destruct (find_level_cases k H) as [-> | [-> | [-> | [-> | [-> | ->]]]]];
    (eexists; split; [reflexivity|]; split; [cbn; tauto|reflexivity]).
Qed.

(** Consecutive rows of the table share a bound, and every row after the
    first is at least 1500 wide. *)
Lemma consecutive_rows (cur next : Level) :
  In cur levels -> In next levels ->
  level next = (level cur + 1)%Z ->
  minXP next = maxXP cur /\ (1500 <= maxXP next - minXP next)%Z.
Proof.
  intros Hc Hn.
  repeat (destruct Hc as [<-|Hc]);
    repeat (destruct Hn as [<-|Hn]);
    try contradiction; cbn [level minXP maxXP]; intro H;
    first [ split; [reflexivity | lia] | exfalso; lia ].
Qed.

End LevelCard.

(** X25: the level card reads two rows of the table, the stored level's and
    the next level's; both exist exactly for a stored level from 1 to 5.
    At the top level 6 (as for any level outside the table) the row of the
    next level is missing and the XP to the next level has no value. *)
Theorem level_card_rows (u : Progress.UserData) :
  ((exists cur next,
       Progress.currentLevelData u = Some cur
       /\ Progress.nextLevelData u = Some next)
   <-> (1 <= Progress.currentLevel u <= 5)%Z)
  /\ (Progress.currentLevel u = 6%Z ->
      Progress.nextLevelData u = None /\ Progress.xpToNextLevel u = None).
Proof.
  unfold Progress.xpToNextLevel, Progress.currentLevelData,
    Progress.nextLevelData.
  set (k := Progress.currentLevel u). split; [split|].
  - intros [cur [next [Hc Hn]]].
    destruct (Z_le_dec 1 k) as [H1|H1];
      [|rewrite find_level_none in Hc by lia; discriminate].
    destruct (Z_le_dec k 5) as [H5|H5]; [lia|].
    rewrite find_level_none in Hn by lia. discriminate.
  - intro H.
    destruct (find_level_some k ltac:(lia)) as [cur [Hc _]].
    destruct (find_level_some (k + 1) ltac:(lia)) as [next [Hn _]].
    exists cur, next. now split.
  - intro H6. rewrite find_level_none by lia. now split.
Qed.

(** X26: for a stored level from 1 to 5 the figure shown as the XP to the
    next level is measured to the upper end of the next level's range, not
    to its lower end: it exceeds the XP that reaches the next level by the
    width of that level, which is 1500 or more. *)
Theorem xpToNextLevel_overshoots (u : Progress.UserData) :
  (1 <= Progress.currentLevel u <= 5)%Z ->
  exists cur next,
    Progress.currentLevelData u = Some cur
    /\ Progress.nextLevelData u = Some next
    /\ Progress.minXP next = Progress.maxXP cur
    /\ Progress.xpToNextLevel u
       = Some (Progress.minXP next - Progress.currentXP u
               + (Progress.maxXP next - Progress.minXP next))%Z
    /\ (1500 <= Progress.maxXP next - Progress.minXP next)%Z.
Proof.
  intro H.
  destruct (find_level_some (Progress.currentLevel u) ltac:(lia))
    as [cur [Hc [Hcin Hclev]]].
  destruct (find_level_some (Progress.currentLevel u + 1) ltac:(lia))
    as [next [Hn [Hnin Hnlev]]].
  exists cur, next.
  unfold Progress.xpToNextLevel, Progress.currentLevelData,
    Progress.nextLevelData.
  rewrite Hc, Hn.
  destruct (consecutive_rows cur next Hcin Hnin ltac:(lia)) as [Hmin Hwidth].
  split; [reflexivity|]. split; [reflexivity|]. split; [exact Hmin|].
  split; [f_equal; lia | exact Hwidth].
Qed.

Lemma xpToNextLevel_overshoots_witness :
  (1 <= Progress.currentLevel Progress.userData <= 5)%Z
  /\ Progress.xpToNextLevel Progress.userData = Some 3750%Z
  /\ exists next,
       Progress.nextLevelData Progress.userData = Some next
       /\ (Progress.minXP next - Progress.currentXP Progress.userData
           = 1250)%Z.
Proof.
  assert (H : (1 <= Progress.currentLevel Progress.userData <= 5)%Z)
    by (cbn; lia).
  split; [exact H|].
  destruct (xpToNextLevel_overshoots Progress.userData H)
    as [cur [next [_ [Hn [_ [Hx _]]]]]].
  split.
  - rewrite Hx. cbn in Hn. injection Hn as <-. reflexivity.
  - exists next. split; [exact Hn|].
    cbn in Hn. injection Hn as <-. reflexivity.
Defined.

(** X27: where the row of the stored level exists, the progress bar of the
    level card is a finite percentage, and it lies between 0 and 100
    exactly when the XP total lies within the range of the stored level;
    a stored level that disagrees with the XP total puts the bar out of
    range. *)
Theorem levelProgress_in_range (u : Progress.UserData) (l : Progress.Level) :
  Progress.currentLevelData u = Some l ->
  exists p,
    Progress.levelProgress u = Some (Fin p)
    /\ (0 <= p <= 100
        <-> (Progress.minXP l <= Progress.currentXP u <= Progress.maxXP l)%Z).
Proof.
  intro Hl. unfold Progress.levelProgress. rewrite Hl.
  assert (Hw : (0 < Progress.maxXP l - Progress.minXP l)%Z).
  { unfold Progress.currentLevelData in Hl. apply find_some in Hl as [Hin _].
    repeat (destruct Hin as [<-|Hin]; [cbn; lia|]). destruct Hin. }
  set (w := (Progress.maxXP l - Progress.minXP l)%Z) in *.
  set (x := (Progress.currentXP u - Progress.minXP l)%Z).
  assert (Hwq : 0 < inject_Z w).
  { change 0 with (inject_Z 0). now rewrite <- Zlt_Qlt. }
  cbn [div]. rewrite (Qsign_pos _ Hwq). cbn [mul].
  eexists. split; [reflexivity|].
  assert (Hx : inject_Z x / inject_Z w * 100
               == 100 * inject_Z x * / inject_Z w) by (field; lra).
  rewrite Hx.
  assert (Hinv : 0 < / inject_Z w) by now apply Qinv_lt_0_compat.
  assert (Hone : inject_Z w * / inject_Z w == 1) by (field; lra).
  assert (Hiff : (Progress.minXP l <= Progress.currentXP u
                  <= Progress.maxXP l)%Z
                 <-> 0 <= inject_Z x <= inject_Z w).
  { change 0 with (inject_Z 0). rewrite <- !Zle_Qle. unfold x, w. lia. }
  rewrite Hiff. clear Hiff Hx.
  set (xq := inject_Z x) in *. set (wq := inject_Z w) in *.
  set (iw := / wq) in *.
  split.
  - intros [H0 H100]. split.
    + assert (H : 0 <= 100 * xq * iw * wq)
        by (apply Qmult_le_0_compat; lra).
      assert (E : 100 * xq * iw * wq == 100 * xq * (wq * iw)) by ring.
      rewrite E, Hone in H. lra.
    + assert (H : 100 * xq * iw * wq <= 100 * wq)
        by (apply Qmult_le_compat_r; lra).
      assert (E : 100 * xq * iw * wq == 100 * xq * (wq * iw)) by ring.
      rewrite E, Hone in H. lra.
  - intros [H0 Hw']. split.
    + assert (H : 0 <= (100 * xq) * iw)
        by (apply Qmult_le_0_compat; lra).
      exact H.
    + assert (H : 100 * xq * iw <= 100 * wq * iw)
        by (apply Qmult_le_compat_r; lra).
      assert (E : 100 * wq * iw == 100 * (wq * iw)) by ring.
      rewrite E, Hone in H. lra.
Qed.

Lemma levelProgress_in_range_witness :
  exists l p,
    Progress.currentLevelData Progress.userData = Some l
    /\ Progress.levelProgress Progress.userData = Some (Fin p)
    /\ 0 <= p <= 100.
Proof.
  assert (Hl : Progress.currentLevelData Progress.userData
               = nth_error Progress.levels 1) by reflexivity.
  cbn [nth_error Progress.levels] in Hl.
  destruct (levelProgress_in_range Progress.userData _ Hl) as [p [Hp Hiff]].
  eexists. exists p. split; [exact Hl|]. split; [exact Hp|].
  apply Hiff. cbn. lia.
Defined.
